(** * Serial over CAN: the transport layer of [src/generic/canbus.c]

    A shallow embedding of Klipper's generic CAN bus transport: the
    transmit buffer and its chunker, the receive buffer and its
    compaction, and the admin (node-id assignment) protocol.

    C integers are modelled as [Z] with the wrap-around of each
    conversion written out ([u8], [u32], [s32]); byte buffers are
    [list Z]; the module's static variables form the record [state];
    calls into the CAN driver and the scheduler are recorded in a
    chronological [trace]. *)

From Equations Require Import Equations.
From Stdlib Require Import String.
From Stdlib Require Import ZArith List Lia Bool.
Import ListNotations.
Local Open Scope Z_scope.

(** ** Machine integers *)

(** Conversion to [uint8_t]. *)
Definition u8 (x : Z) : Z := x mod 2 ^ 8.

(** Conversion to [uint32_t] (also used for [size_t]). *)
Definition u32 (x : Z) : Z := x mod 2 ^ 32.

(** Conversion of a 32-bit pattern to [int] (two's complement). *)
Definition s32 (x : Z) : Z := (x + 2 ^ 31) mod 2 ^ 32 - 2 ^ 31.

(** ** Memory blocks

    A buffer is the list of its bytes.  [memread] fetches [n] bytes
    starting at offset [off]; bytes past the end of the block are
    unspecified in C and read as 0 here.  [memwrite] stores a run of
    bytes at offset [off]; a store that stays inside the block keeps
    its length, a store that runs past its end makes the list longer,
    so "the length is unchanged" says that nothing was written outside
    the block. *)

Definition memread (src : list Z) (off n : nat) : list Z :=
  map (fun i => nth (off + i) src 0) (seq 0 n).

Definition memwrite (dst : list Z) (off : nat) (bytes : list Z) : list Z :=
  firstn off dst ++ bytes ++ skipn (off + length bytes) dst.

(** [memmove(&buf[0], &buf[src], n)] *)
Definition memmove_down (buf : list Z) (src n : nat) : list Z :=
  memwrite buf 0 (memread buf src n).

(** [memcmp(a, b, n) == 0] *)
Definition memcmp_eq (a b : list Z) (n : nat) : bool :=
  forallb (fun i => nth i a 0 =? nth i b 0) (seq 0 n).

(** ** Calls that leave the module *)

Inductive event : Type :=
| EvSend (id len : Z) (data : list Z) (ret : Z)
    (** [canbus_send(id, len, data)] returned [ret] *)
| EvSetFilter (id : Z)
    (** [canbus_set_filter(id)] *)
| EvShutdown (msg : String.string)
    (** [shutdown(msg)] *)
| EvReboot.
    (** [canbus_reboot()] *)

(** ** The module's static variables *)

Record state : Type := mkState {
  canbus_assigned_id : Z;      (* uint32_t *)
  canbus_uuid : list Z;        (* uint8_t [CANBUS_UUID_LEN] *)
  canbus_tx_wake : bool;       (* struct task_wake *)
  transmit_buf : list Z;       (* uint8_t [96] *)
  transmit_pos : Z;            (* uint8_t *)
  transmit_max : Z;            (* uint8_t *)
  canbus_rx_wake : bool;       (* struct task_wake *)
  receive_buf : list Z;        (* uint8_t [192] *)
  receive_pos : Z;             (* uint8_t *)
  send_calls : nat;            (* number of canbus_send calls made so far *)
  trace : list event           (* calls that left the module, oldest first *)
}.

Definition set_assigned_id (v : Z) (s : state) : state :=
  mkState v (canbus_uuid s) (canbus_tx_wake s)
          (transmit_buf s) (transmit_pos s) (transmit_max s)
          (canbus_rx_wake s) (receive_buf s) (receive_pos s)
          (send_calls s) (trace s).

Definition set_uuid (v : list Z) (s : state) : state :=
  mkState (canbus_assigned_id s) v (canbus_tx_wake s)
          (transmit_buf s) (transmit_pos s) (transmit_max s)
          (canbus_rx_wake s) (receive_buf s) (receive_pos s)
          (send_calls s) (trace s).

Definition set_tx_wake (v : bool) (s : state) : state :=
  mkState (canbus_assigned_id s) (canbus_uuid s) v
          (transmit_buf s) (transmit_pos s) (transmit_max s)
          (canbus_rx_wake s) (receive_buf s) (receive_pos s)
          (send_calls s) (trace s).

Definition set_transmit_buf (v : list Z) (s : state) : state :=
  mkState (canbus_assigned_id s) (canbus_uuid s) (canbus_tx_wake s)
          v (transmit_pos s) (transmit_max s)
          (canbus_rx_wake s) (receive_buf s) (receive_pos s)
          (send_calls s) (trace s).

Definition set_transmit_pos (v : Z) (s : state) : state :=
  mkState (canbus_assigned_id s) (canbus_uuid s) (canbus_tx_wake s)
          (transmit_buf s) v (transmit_max s)
          (canbus_rx_wake s) (receive_buf s) (receive_pos s)
          (send_calls s) (trace s).

Definition set_transmit_max (v : Z) (s : state) : state :=
  mkState (canbus_assigned_id s) (canbus_uuid s) (canbus_tx_wake s)
          (transmit_buf s) (transmit_pos s) v
          (canbus_rx_wake s) (receive_buf s) (receive_pos s)
          (send_calls s) (trace s).

Definition set_rx_wake (v : bool) (s : state) : state :=
  mkState (canbus_assigned_id s) (canbus_uuid s) (canbus_tx_wake s)
          (transmit_buf s) (transmit_pos s) (transmit_max s)
          v (receive_buf s) (receive_pos s)
          (send_calls s) (trace s).

Definition set_receive_buf (v : list Z) (s : state) : state :=
  mkState (canbus_assigned_id s) (canbus_uuid s) (canbus_tx_wake s)
          (transmit_buf s) (transmit_pos s) (transmit_max s)
          (canbus_rx_wake s) v (receive_pos s)
          (send_calls s) (trace s).

Definition set_receive_pos (v : Z) (s : state) : state :=
  mkState (canbus_assigned_id s) (canbus_uuid s) (canbus_tx_wake s)
          (transmit_buf s) (transmit_pos s) (transmit_max s)
          (canbus_rx_wake s) (receive_buf s) v
          (send_calls s) (trace s).

(** One more [canbus_send] call has been made. *)
Definition count_send (s : state) : state :=
  mkState (canbus_assigned_id s) (canbus_uuid s) (canbus_tx_wake s)
          (transmit_buf s) (transmit_pos s) (transmit_max s)
          (canbus_rx_wake s) (receive_buf s) (receive_pos s)
          (S (send_calls s)) (trace s).

(** Append an event to the trace. *)
Definition log (e : event) (s : state) : state :=
  mkState (canbus_assigned_id s) (canbus_uuid s) (canbus_tx_wake s)
          (transmit_buf s) (transmit_pos s) (transmit_max s)
          (canbus_rx_wake s) (receive_buf s) (receive_pos s)
          (send_calls s) (trace s ++ [e]).

(** [sizeof(transmit_buf)] and [sizeof(receive_buf)] *)
Definition sizeof_transmit_buf : Z := 96.
Definition sizeof_receive_buf : Z := 192.

(** Modelled from the spec: [CANBUS_UUID_LEN] is declared in canbus.h,
    which is not among the sources; the spec fixes the UUID at 6 bytes
    (payload bytes 1..6 of an admin frame). *)
Definition CANBUS_UUID_LEN : nat := 6.

(** The state of the statics at program start (zero-initialised). *)
Definition initial_state : state :=
  mkState 0 (repeat 0 CANBUS_UUID_LEN) false
          (repeat 0 96) 0 0
          false (repeat 0 192) 0
          0%nat [].

(** [struct command_encoder] is declared in command.h; the transport
    reads only its [max_size] field. *)
Record command_encoder : Type := mkEncoder {
  msg_id : Z;
  max_size : Z
}.

(** A frame as [canbus_read] hands it over: the identifier, the return
    value (payload length, negative when no frame is pending) and the
    contents of the 8-byte [data] array. *)
Record frame : Type := mkFrame {
  fr_id : Z;
  fr_ret : Z;
  fr_data : list Z
}.

(** How a call ends.  [shutdown] and [canbus_reboot] do not return to
    their caller; the retry loop of [can_send_uuid] has no bound in the
    source, so a run that is still retrying when the fuel of the model
    is used up ends as [Retrying]. *)
Inductive outcome : Type :=
| Returned (s : state)
| ShutDown (s : state)
| Rebooted (s : state)
| Retrying (s : state).

Definition final_state (o : outcome) : state :=
  match o with
  | Returned s | ShutDown s | Rebooted s | Retrying s => s
  end.

(** Sequencing: the continuation runs only after a normal return. *)
Definition and_then (o : outcome) (k : state -> outcome) : outcome :=
  match o with
  | Returned s => k s
  | _ => o
  end.

Notation "o >>= k" := (and_then o k) (at level 50, left associativity).

Section Canbus.

Set Default Proof Using "Type".

(** *** External collaborators: the CAN driver *)

(** [canbus_send_result n] is what the [n]-th call of [canbus_send]
    returns (calls are counted from 0 in [send_calls]). *)
Variable canbus_send_result : nat -> Z.

(** *** Driver and scheduler calls *)

Definition canbus_send (id len : Z) (data : list Z) (s : state) : Z * state :=
  let ret := canbus_send_result (send_calls s) in
  (ret, count_send (log (EvSend id len data ret) s)).

Definition canbus_set_filter (id : Z) (s : state) : state :=
  log (EvSetFilter id) s.

Definition shutdown (msg : String.string) (s : state) : outcome :=
  ShutDown (log (EvShutdown msg) s).

Definition canbus_reboot (s : state) : outcome :=
  Rebooted (log EvReboot s).

(** [sched_wake_task] sets the flag, [sched_check_wake] reads and
    clears it. *)
Definition canbus_notify_tx (s : state) : state := set_tx_wake true s.
Definition canbus_notify_rx (s : state) : state := set_rx_wake true s.

(** *** Data transmission over CAN *)

(** The body of the [for (;;)] loop of [canbus_tx_task] on its locals
    [tpos] and [tmax]; it returns the final [tpos]. *)
Equations tx_loop (id tmax tpos : Z) (s : state) : Z * state
  by wf (Z.to_nat (s32 (u32 (tmax - tpos)))) lt :=
tx_loop id tmax tpos s with Z_le_dec (s32 (u32 (tmax - tpos))) 0 := {
  | left _ => (tpos, s)
  | right Havail =>
      let avail := s32 (u32 (tmax - tpos)) in
      let now := if avail >? 8 then 8 else avail in
      let r := canbus_send (u32 (id + 1)) now
                 (memread (transmit_buf s) (Z.to_nat tpos) (Z.to_nat now)) s in
      if fst r <=? 0 then (tpos, snd r)
      else tx_loop id tmax (u32 (tpos + now)) (snd r) }.
Next Obligation.
  destruct (Z.gtb_spec (s32 (u32 (tmax - tpos))) 8) as [E|E];
    unfold s32, u32 in *; Z.to_euclidean_division_equations; lia.
Qed.

(** *** External collaborators: the command codec

    The bytes [command_encode_and_frame] writes for an encoder and its
    arguments (it returns their count), and the pair (return value,
    [pop_count]) of [command_find_and_dispatch] on the receive buffer
    and its fill length. *)
Variable va_list : Type.
Variable command_encode_and_frame : command_encoder -> va_list -> list Z.
Variable command_find_and_dispatch : list Z -> Z -> Z * Z.

(** Identifiers of the admin channel (canbus.h). *)
Variable CANBUS_ID_ADMIN : Z.
Variable CANBUS_ID_ADMIN_RESP : Z.

Definition canbus_tx_task (s : state) : state :=
  if negb (canbus_tx_wake s) then s
  else
    let s := set_tx_wake false s in
    let id := canbus_assigned_id s in
    if id =? 0 then set_transmit_max 0 (set_transmit_pos 0 s)
    else
      let tpos := transmit_pos s in
      let tmax := transmit_max s in
      let r := tx_loop id tmax tpos s in
      set_transmit_pos (u8 (fst r)) (snd r).

(** "Generate message" and "Start message transmit": the tail of
    [console_sendf], with the local [tmax] as left by the space check. *)
Definition sendf_emit (ce : command_encoder) (args : va_list)
    (tmax : Z) (s : state) : state :=
  let msg := command_encode_and_frame ce args in
  let msglen := u32 (Z.of_nat (length msg)) in
  let s := set_transmit_buf (memwrite (transmit_buf s) (Z.to_nat tmax) msg) s in
  let s := set_transmit_max (u8 (tmax + msglen)) s in
  canbus_notify_tx s.

Definition console_sendf (ce : command_encoder) (args : va_list)
    (s : state) : state :=
  let tpos := transmit_pos s in
  let tmax := transmit_max s in
  let '(s, tpos, tmax) :=
    if tpos >=? tmax
    then (set_transmit_max 0 (set_transmit_pos 0 s), 0, 0)
    else (s, tpos, tmax) in
  let max_size := u32 (max_size ce) in
  if u32 (tmax + max_size) >? sizeof_transmit_buf then
    if u32 (u32 (tmax + max_size) - tpos) >? sizeof_transmit_buf then
      s
    else
      let tmax := u32 (tmax - tpos) in
      let s := set_transmit_buf
                 (memmove_down (transmit_buf s) (Z.to_nat tpos) (Z.to_nat tmax)) s in
      let s := set_transmit_pos 0 s in
      let s := set_transmit_max (u8 tmax) s in
      sendf_emit ce args tmax s
  else
    sendf_emit ce args tmax s.

(** *** CAN "admin" command handling *)

Definition CANBUS_CMD_QUERY_UNASSIGNED : Z := 0.
Definition CANBUS_CMD_QUERY : Z := 1.
Definition CANBUS_CMD_SET_CANID : Z := 2.
Definition CANBUS_CMD_REBOOT : Z := 3.
Definition CANBUS_RESP_NEED_CANID : Z := 32.
Definition CANBUS_RESP_HAVE_CANID : Z := 33.

Definition can_check_uuid (id len : Z) (data : list Z) (s : state) : bool :=
  (len >=? 7) && memcmp_eq (skipn 1 data) (canbus_uuid s) CANBUS_UUID_LEN.

Definition can_encode_id (s : state) : Z :=
  if canbus_assigned_id s =? 0 then 0
  else s32 (Z.shiftr (u32 (canbus_assigned_id s - 0x100)) 1).

Definition can_decode_id (encoded_id : Z) : Z :=
  u32 (Z.shiftl encoded_id 1 + 0x100).

(** "Send with retry": the [for (;;)] loop of [can_send_uuid]. *)
Fixpoint send_retry (fuel : nat) (data : list Z) (s : state) : outcome :=
  match fuel with
  | O => Retrying s
  | S fuel' =>
      let r := canbus_send CANBUS_ID_ADMIN_RESP 8 data s in
      if fst r >=? 0 then Returned (snd r)
      else send_retry fuel' data (snd r)
  end.

Definition can_send_uuid (fuel : nat) (s : state) : outcome :=
  let data := repeat 0 8 in
  let data :=
    memwrite data 0
      [if negb (canbus_assigned_id s =? 0)
       then CANBUS_RESP_HAVE_CANID else CANBUS_RESP_NEED_CANID] in
  let data := memwrite data 1 (memread (canbus_uuid s) 0 CANBUS_UUID_LEN) in
  let data := memwrite data 7 [u8 (can_encode_id s)] in
  send_retry fuel data s.

Definition can_process_query_unassigned (fuel : nat) (id len : Z)
    (data : list Z) (s : state) : outcome :=
  if canbus_assigned_id s =? 0 then can_send_uuid fuel s else Returned s.

Definition can_process_query (fuel : nat) (id len : Z)
    (data : list Z) (s : state) : outcome :=
  if can_check_uuid id len data s then can_send_uuid fuel s else Returned s.

Definition can_process_set_canid (fuel : nat) (id len : Z)
    (data : list Z) (s : state) : outcome :=
  if len <? 8 then Returned s
  else
    let newid := can_decode_id (nth 7 data 0) in
    if can_check_uuid id len data s then
      let s :=
        if negb (newid =? canbus_assigned_id s) then
          let s := set_assigned_id newid s in
          canbus_set_filter (canbus_assigned_id s) s
        else s in
      can_send_uuid fuel s
    else if newid =? canbus_assigned_id s then
      let s := set_assigned_id 0 s in
      let s := canbus_set_filter (canbus_assigned_id s) s in
      can_send_uuid fuel s
        >>= shutdown "Another CAN node assigned this ID"%string
    else Returned s.

Definition can_process_reboot (id len : Z) (data : list Z)
    (s : state) : outcome :=
  if can_check_uuid id len data s then canbus_reboot s else Returned s.

(** Handle an "admin" command. *)
Definition can_process (fuel : nat) (id len : Z) (data : list Z)
    (s : state) : outcome :=
  if len =? 0 then Returned s
  else
    let cmd := nth 0 data 0 in
    if cmd =? CANBUS_CMD_QUERY_UNASSIGNED then
      can_process_query_unassigned fuel id len data s
    else if cmd =? CANBUS_CMD_QUERY then
      can_process_query fuel id len data s
    else if cmd =? CANBUS_CMD_SET_CANID then
      can_process_set_canid fuel id len data s
    else if cmd =? CANBUS_CMD_REBOOT then
      can_process_reboot id len data s
    else Returned s.

(** *** CAN packet reading *)

Definition can_process_data (id len : Z) (data : list Z) (s : state) : state :=
  let rpos := receive_pos s in
  let len :=
    if len >? u32 (sizeof_receive_buf - rpos)
    then u32 (sizeof_receive_buf - rpos) else len in
  let s := set_receive_buf
             (memwrite (receive_buf s) (Z.to_nat rpos)
                       (memread data 0 (Z.to_nat len))) s in
  set_receive_pos (u8 (rpos + len)) s.

(** "Read any pending CAN packets": [pending] lists what the
    successive [canbus_read] calls of this wake deliver; once it is
    used up [canbus_read] reports that nothing is pending. *)
Fixpoint rx_drain (fuel : nat) (pending : list frame) (s : state) : outcome :=
  match pending with
  | [] => Returned s
  | f :: rest =>
      let ret := fr_ret f in
      let id := fr_id f in
      let data := fr_data f in
      if ret <? 0 then Returned s
      else
        (if negb (id =? 0) && (id =? canbus_assigned_id s) then
           Returned (can_process_data id (u32 ret) data s)
         else if id =? CANBUS_ID_ADMIN then
           can_process fuel id (u32 ret) data s
         else Returned s)
        >>= rx_drain fuel rest
  end.

(** "Check for a complete message block and process it". *)
Definition rx_dispatch (s : state) : state :=
  let rpos := receive_pos s in
  let r := command_find_and_dispatch (receive_buf s) rpos in
  let ret := fst r in
  let pop_count := snd r in
  if negb (ret =? 0) then
    let needcopy := s32 (u32 (rpos - pop_count)) in
    let s :=
      if negb (needcopy =? 0) then
        canbus_notify_rx
          (set_receive_buf
             (memmove_down (receive_buf s) (Z.to_nat pop_count)
                           (Z.to_nat (u32 needcopy))) s)
      else s in
    set_receive_pos (u8 needcopy) s
  else
    set_receive_pos (u8 rpos) s.

Definition canbus_rx_task (fuel : nat) (pending : list frame)
    (s : state) : outcome :=
  if negb (canbus_rx_wake s) then Returned s
  else
    rx_drain fuel pending (set_rx_wake false s)
      >>= (fun s => Returned (rx_dispatch s)).

(** *** Setup and shutdown *)

Definition canbus_set_uuid (fuel : nat) (uuid : list Z) (s : state) : outcome :=
  let s := set_uuid (memwrite (canbus_uuid s) 0
                              (memread uuid 0 CANBUS_UUID_LEN)) s in
  let s := canbus_notify_rx s in
  can_send_uuid fuel s.

Definition canbus_shutdown (s : state) : state :=
  canbus_notify_rx (canbus_notify_tx s).

(** ** Specification vocabulary *)

(** TransmitBuffer invariant: [0 <= position <= limit <= capacity]. *)
Definition tx_inv (s : state) : Prop :=
  0 <= transmit_pos s <= transmit_max s /\
  transmit_max s <= sizeof_transmit_buf.

(** ReceiveBuffer invariant: [0 <= position <= capacity]. *)
Definition rx_inv (s : state) : Prop :=
  0 <= receive_pos s <= sizeof_receive_buf.

(** The unsent region [transmit_buf[position .. limit)]. *)
Definition unsent (s : state) : list Z :=
  memread (transmit_buf s) (Z.to_nat (transmit_pos s))
          (Z.to_nat (transmit_max s - transmit_pos s)).

(** The state [console_sendf] starts from once "buffer fully
    drained" has been handled. *)
Definition sendf_reset (s : state) : state :=
  if transmit_pos s >=? transmit_max s
  then set_transmit_max 0 (set_transmit_pos 0 s) else s.

(** The buffered region [receive_buf[0 .. position)]. *)
Definition received (s : state) : list Z :=
  memread (receive_buf s) 0 (Z.to_nat (receive_pos s)).

(** [s] after the driver calls [evs] (all of them [canbus_send]s). *)
Definition add_sends (evs : list event) (s : state) : state :=
  mkState (canbus_assigned_id s) (canbus_uuid s) (canbus_tx_wake s)
          (transmit_buf s) (transmit_pos s) (transmit_max s)
          (canbus_rx_wake s) (receive_buf s) (receive_pos s)
          (length evs + send_calls s)%nat (trace s ++ evs).

(** Cutting a byte string into pieces of 8 bytes, the last one
    possibly shorter. *)
Fixpoint chunks_of (fuel : nat) (l : list Z) : list (list Z) :=
  match fuel, l with
  | S fuel', _ :: _ => firstn 8 l :: chunks_of fuel' (skipn 8 l)
  | _, _ => []
  end.

Definition chunks8 (l : list Z) : list (list Z) := chunks_of (length l) l.

(** The chunker as the specification words it: offer the chunks one
    by one to the driver, as frames for [dst], and stop at the first
    send whose result is not positive.  Returns the driver calls made
    and the number of chunks accepted; [n] is the index of the next
    driver call. *)
Fixpoint send_chunks (dst : Z) (cs : list (list Z)) (n : nat)
    : list event * nat :=
  match cs with
  | [] => ([], 0%nat)
  | c :: cs' =>
      let ret := canbus_send_result n in
      let ev := EvSend dst (Z.of_nat (length c)) c ret in
      if ret <=? 0 then ([ev], 0%nat)
      else let r := send_chunks dst cs' (S n) in (ev :: fst r, S (snd r))
  end.

(** The payload bytes that reached the bus in frames for [dst]: those
    of the sends the transmit task counts as done (positive result). *)
Definition wire_payload (dst : Z) (e : event) : list Z :=
  match e with
  | EvSend id _ data ret =>
      if (id =? dst) && (ret >? 0) then data else []
  | _ => []
  end.

Definition wire_bytes (dst : Z) (tr : list event) : list Z :=
  flat_map (wire_payload dst) tr.

(** A data frame for [dst]: between 1 and 8 payload bytes. *)
Definition data_frame (dst : Z) (e : event) : Prop :=
  match e with
  | EvSend id len data _ =>
      id = dst /\ len = Z.of_nat (length data) /\ 1 <= len <= 8
  | _ => False
  end.

(** Work for the transmit pipeline: an enqueue or a run of the task. *)
Inductive tx_op : Type :=
| Enqueue (ce : command_encoder) (args : va_list)
| TxWake.

Definition run_tx_op (op : tx_op) (s : state) : state :=
  match op with
  | Enqueue ce args => console_sendf ce args s
  | TxWake => canbus_tx_task s
  end.

Definition run_tx_ops (ops : list tx_op) (s : state) : state :=
  fold_left (fun s op => run_tx_op op s) ops s.

(** The bytes an operation puts into the transmit buffer: the message
    of an enqueue that finds room (after compaction if need be),
    nothing otherwise. *)
Definition buffered_by (op : tx_op) (s : state) : list Z :=
  match op with
  | Enqueue ce args =>
      if transmit_max s - transmit_pos s + max_size ce <=? sizeof_transmit_buf
      then command_encode_and_frame ce args else []
  | TxWake => []
  end.

(** The bytes a run of [ops] from [s] puts into the transmit buffer,
    in order. *)
Fixpoint buffered_bytes (ops : list tx_op) (s : state) : list Z :=
  match ops with
  | [] => []
  | op :: rest => buffered_by op s ++ buffered_bytes rest (run_tx_op op s)
  end.

(** The messages of the enqueues of [ops], in order. *)
Definition enqueued_bytes (ops : list tx_op) : list Z :=
  flat_map (fun op => match op with
                      | Enqueue ce args => command_encode_and_frame ce args
                      | TxWake => []
                      end) ops.

(** The space the enqueues of [ops] ask for. *)
Definition reserved_size (ops : list tx_op) : Z :=
  fold_right (fun op acc => match op with
                            | Enqueue ce _ => max_size ce + acc
                            | TxWake => acc
                            end) 0 ops.

(** The encoder keeps to its declared maximum, and the declared
    maximum is small enough for [tmax + max_size] not to wrap around
    32 bits (in command.h the field is 8 bits wide). *)
Definition encoder_ok (ce : command_encoder) (args : va_list) : Prop :=
  0 <= max_size ce <= 2 ^ 32 - 2 ^ 8 /\
  Z.of_nat (length (command_encode_and_frame ce args)) <= max_size ce.

Definition op_ok (op : tx_op) : Prop :=
  match op with
  | Enqueue ce args => encoder_ok ce args
  | TxWake => True
  end.

(** The driver refuses the next [k] sends (negative result) and takes
    the one after them; [n] is the index of the next driver call. *)
Definition accepts_after (n k : nat) : Prop :=
  (forall i, (i < k)%nat -> canbus_send_result (n + i) < 0) /\
  canbus_send_result (n + k) >= 0.

(** [k] refused attempts to send [data] on the admin response
    identifier, starting at driver call [n]. *)
Fixpoint refused_sends (data : list Z) (n k : nat) : list event :=
  match k with
  | O => []
  | S k' =>
      EvSend CANBUS_ID_ADMIN_RESP 8 data (canbus_send_result n)
        :: refused_sends data (S n) k'
  end.

(** The driver calls of one [can_send_uuid]: [k] refused attempts and
    the accepted one. *)
Definition response_sends (data : list Z) (n k : nat) : list event :=
  refused_sends data n k
    ++ [EvSend CANBUS_ID_ADMIN_RESP 8 data (canbus_send_result (n + k)%nat)].

(** The response frame as the specification lays it out: tag, the six
    UUID bytes, the encoded address. *)
Definition response_frame (tag : Z) (uuid : list Z) (encoded : Z) : list Z :=
  tag :: memread uuid 0 CANBUS_UUID_LEN ++ [encoded].

(** The frames the driver took ([canbus_send] result not negative),
    with their identifiers. *)
Definition accepted_frames (tr : list event) : list (Z * list Z) :=
  flat_map (fun e => match e with
                     | EvSend id _ data ret =>
                         if ret >=? 0 then [(id, data)] else []
                     | _ => []
                     end) tr.

(** The [shutdown] calls of a trace. *)
Definition shutdown_calls (tr : list event) : list String.string :=
  flat_map (fun e => match e with
                     | EvShutdown msg => [msg]
                     | _ => []
                     end) tr.

(** The [canbus_set_filter] calls of a trace. *)
Definition filter_calls (tr : list event) : list Z :=
  flat_map (fun e => match e with
                     | EvSetFilter id => [id]
                     | _ => []
                     end) tr.

(** [s'] differs from [s] at most in the assigned address and the
    record of driver calls. *)
Definition same_buffers (s s' : state) : Prop :=
  canbus_uuid s' = canbus_uuid s /\
  canbus_tx_wake s' = canbus_tx_wake s /\
  transmit_buf s' = transmit_buf s /\
  transmit_pos s' = transmit_pos s /\
  transmit_max s' = transmit_max s /\
  canbus_rx_wake s' = canbus_rx_wake s /\
  receive_buf s' = receive_buf s /\
  receive_pos s' = receive_pos s.

(** A payload byte. *)
Definition is_byte (b : Z) : Prop := 0 <= b < 2 ^ 8.

(** The assigned addresses a [SET_CANID] command can install: the
    images of the encoded bytes. *)
Definition valid_assigned_id (x : Z) : Prop :=
  exists e, is_byte e /\ x = can_decode_id e.

(** The payload of a frame as [canbus_rx_task] sees it: the first
    [fr_ret] bytes of its data array. *)
Definition payload (f : frame) : list Z :=
  memread (fr_data f) 0 (Z.to_nat (fr_ret f)).

Definition payloads (fs : list frame) : list Z := flat_map payload fs.

Definition payload_size (fs : list frame) : Z :=
  fold_right (fun f acc => fr_ret f + acc) 0 fs.

(** A frame that is neither for this device's data channel nor for
    the admin channel. *)
Definition foreign_frame (s : state) (f : frame) : Prop :=
  fr_id f <> CANBUS_ID_ADMIN /\
  (fr_id f = 0 \/ fr_id f <> canbus_assigned_id s).

(** A frame for this device's data channel. *)
Definition own_data_frame (s : state) (f : frame) : Prop :=
  fr_id f = canbus_assigned_id s /\ 0 <= fr_ret f.

(** [s'] has the receive side, the UUID and the address of [s]. *)
Definition same_receive_side (s s' : state) : Prop :=
  canbus_uuid s' = canbus_uuid s /\
  canbus_assigned_id s' = canbus_assigned_id s /\
  canbus_rx_wake s' = canbus_rx_wake s /\
  receive_buf s' = receive_buf s /\
  receive_pos s' = receive_pos s.

(** [s'] has the transmit buffer, cursors and wake flag of [s]. *)
Definition same_transmit_side (s s' : state) : Prop :=
  canbus_uuid s' = canbus_uuid s /\
  canbus_tx_wake s' = canbus_tx_wake s /\
  transmit_buf s' = transmit_buf s /\
  transmit_pos s' = transmit_pos s /\
  transmit_max s' = transmit_max s.

(** ** Sample devices and frames *)

Definition ex_uuid : list Z := [1; 2; 3; 4; 5; 6].

(** A driver that refuses the first two sends and takes the rest. *)
Definition ex_driver_busy (n : nat) : Z := if (n <? 2)%nat then -1 else 8.

(** A driver that takes every frame. *)
Definition ex_driver_ready (n : nat) : Z := 8.

(** A codec whose encoders write their argument bytes; complete
    messages are three bytes long. *)
Definition ex_encode (ce : command_encoder) (args : list Z) : list Z := args.
Definition ex_find (buf : list Z) (len : Z) : Z * Z :=
  if len >=? 3 then (1, 3) else (0, 0).

(** A device holding address [0x10a] (encoded 5), nothing buffered. *)
Definition ex_assigned : state :=
  mkState 0x10a ex_uuid false (repeat 0 96) 0 0
          true (repeat 0 192) 0 0%nat [].

(** A device without an address. *)
Definition ex_unassigned : state :=
  mkState 0 ex_uuid true (repeat 0 96) 0 0
          true (repeat 0 192) 0 0%nat [].

(** SET_CANID frames asking for encoded address 5: one for another
    UUID, one for [ex_uuid]. *)
Definition ex_set_other : list Z := [2; 9; 9; 9; 9; 9; 9; 5].
Definition ex_set_self : list Z := [2; 1; 2; 3; 4; 5; 6; 5].
Definition ex_set_self_zero : list Z := [2; 1; 2; 3; 4; 5; 6; 0].

(** Transmit buffers: 11 unsent bytes at the start; 40 unsent bytes
    at offsets 50..89; 90 unsent bytes; drained at offset 40. *)
Definition ex_tx_pending : state :=
  mkState 0x10a ex_uuid true
          ([1; 2; 3; 4; 5; 6; 7; 8; 9; 10; 11] ++ repeat 0 85) 0 11
          false (repeat 0 192) 0 0%nat [].

Definition ex_tx_tail : state :=
  mkState 0x10a ex_uuid false
          (repeat 0 50 ++ repeat 7 40 ++ repeat 0 6) 50 90
          false (repeat 0 192) 0 0%nat [].

Definition ex_tx_full : state :=
  mkState 0x10a ex_uuid false (repeat 7 96) 0 90
          false (repeat 0 192) 0 0%nat [].

Definition ex_tx_drained : state :=
  mkState 0x10a ex_uuid false (repeat 7 96) 40 40
          false (repeat 0 192) 0 0%nat [].

Definition ex_tx_unassigned : state :=
  mkState 0 ex_uuid true
          ([1; 2; 3; 4; 5; 6; 7; 8; 9; 10; 11] ++ repeat 0 85) 0 11
          false (repeat 0 192) 0 0%nat [].

(** A receive buffer two bytes short of full. *)
Definition ex_rx_nearly_full : state :=
  mkState 0x10a ex_uuid false (repeat 0 96) 0 0
          true (repeat 7 192) 190 0%nat [].

Definition ex_data_frame : frame :=
  mkFrame 0x10a 8 [11; 12; 13; 14; 15; 16; 17; 18].

(** A driver that refuses every send. *)
Definition ex_driver_dead (n : nat) : Z := -1.

(** More admin frames: QUERY_UNASSIGNED, QUERY and REBOOT for
    [ex_uuid], a frame with an unknown command byte, and frames as
    [canbus_read] delivers them. *)
Definition ex_query_unassigned : list Z := [0; 0; 0; 0; 0; 0; 0; 0].
Definition ex_query_self : list Z := [1; 1; 2; 3; 4; 5; 6; 0].
Definition ex_reboot_self : list Z := [3; 1; 2; 3; 4; 5; 6; 0].
Definition ex_unknown : list Z := [9; 1; 2; 3; 4; 5; 6; 0].

Definition ex_collision_frame : frame := mkFrame 0x3f0 8 ex_set_other.
Definition ex_foreign_frame : frame :=
  mkFrame 0x200 8 [11; 12; 13; 14; 15; 16; 17; 18].
Definition ex_zero_frame : frame :=
  mkFrame 0 8 [11; 12; 13; 14; 15; 16; 17; 18].

(** ** Machine integers: basic facts *)

Lemma u8_small x : 0 <= x < 2 ^ 8 -> u8 x = x.
Proof. intros H. unfold u8. apply Z.mod_small. lia. Qed.

Lemma u32_small x : 0 <= x < 2 ^ 32 -> u32 x = x.
Proof. intros H. unfold u32. apply Z.mod_small. lia. Qed.

Lemma s32_small x : - 2 ^ 31 <= x < 2 ^ 31 -> s32 x = x.
Proof. intros H. unfold s32. rewrite Z.mod_small; lia. Qed.

Lemma u32_range x : 0 <= u32 x < 2 ^ 32.
Proof. unfold u32. apply Z.mod_pos_bound. lia. Qed.

Lemma s32_u32_diff a b :
  - 2 ^ 31 <= a - b < 2 ^ 31 -> s32 (u32 (a - b)) = a - b.
Proof.
  intros H. unfold s32, u32.
  clear canbus_send_result command_encode_and_frame command_find_and_dispatch.
  Z.to_euclidean_division_equations; lia.
Qed.

(** ** Memory blocks: basic facts *)

Lemma length_memread src off n : length (memread src off n) = n.
Proof. unfold memread. now rewrite length_map, length_seq. Qed.

Lemma memread_nil src off : memread src off 0 = [].
Proof. reflexivity. Qed.

Lemma nth_memread src off n i :
  (i < n)%nat -> nth i (memread src off n) 0 = nth (off + i) src 0.
Proof.
  intros H. unfold memread.
  set (f := fun j => nth (off + j) src 0).
  rewrite nth_indep with (d' := f 0%nat)
    by now rewrite length_map, length_seq.
  rewrite map_nth, seq_nth by assumption. reflexivity.
Qed.

Lemma list_eq_nth (l1 l2 : list Z) :
  length l1 = length l2 ->
  (forall i, (i < length l1)%nat -> nth i l1 0 = nth i l2 0) ->
  l1 = l2.
Proof. intros Hl Hn. apply nth_ext with (d := 0) (d' := 0); assumption. Qed.

Lemma memread_split src off n m :
  memread src off (n + m) = memread src off n ++ memread src (off + n) m.
Proof.
  apply list_eq_nth.
  - now rewrite length_app, !length_memread.
  - intros i Hi. rewrite length_memread in Hi.
    rewrite nth_memread by assumption.
    destruct (Nat.lt_ge_cases i n) as [Hlt|Hge].
    + rewrite app_nth1 by now rewrite length_memread.
      now rewrite nth_memread.
    + rewrite app_nth2 by now rewrite length_memread.
      rewrite length_memread, nth_memread by lia. f_equal. lia.
Qed.

Lemma firstn_memread src off n k :
  firstn k (memread src off n) = memread src off (Nat.min k n).
Proof.
  destruct (Nat.le_ge_cases k n) as [H|H].
  - replace n with (k + (n - k))%nat at 1 by lia.
    rewrite memread_split, firstn_app, length_memread, Nat.sub_diag.
    rewrite firstn_all2 by now rewrite length_memread.
    cbn [firstn]. rewrite app_nil_r. f_equal. lia.
  - rewrite firstn_all2 by now rewrite length_memread. f_equal. lia.
Qed.

Lemma skipn_memread src off n k :
  skipn k (memread src off n) = memread src (off + k) (n - k).
Proof.
  destruct (Nat.le_ge_cases k n) as [H|H].
  - replace n with (k + (n - k))%nat at 1 by lia.
    rewrite memread_split, skipn_app, length_memread, Nat.sub_diag.
    rewrite skipn_all2 by now rewrite length_memread. reflexivity.
  - rewrite skipn_all2 by now rewrite length_memread.
    replace (n - k)%nat with 0%nat by lia. reflexivity.
Qed.

Lemma memread_in_bounds src off n :
  (off + n <= length src)%nat ->
  memread src off n = firstn n (skipn off src).
Proof.
  intros H. apply list_eq_nth.
  - rewrite length_memread, length_firstn, length_skipn. lia.
  - intros i Hi. rewrite length_memread in Hi.
    rewrite nth_memread, nth_firstn by assumption.
    destruct (Nat.ltb_spec i n) as [_|Hge]; [|lia].
    now rewrite nth_skipn.
Qed.

Lemma length_memwrite dst off bytes :
  (off + length bytes <= length dst)%nat ->
  length (memwrite dst off bytes) = length dst.
Proof.
  intros H. unfold memwrite.
  rewrite !length_app, length_firstn, length_skipn. lia.
Qed.

(** A store that runs past the end of the block shows as growth. *)
Lemma length_memwrite_overflow dst off bytes :
  (length dst < off + length bytes)%nat -> bytes <> [] ->
  (length dst < length (memwrite dst off bytes))%nat.
Proof.
  intros H Hne. unfold memwrite.
  assert (0 < length bytes)%nat by (destruct bytes; [congruence|cbn; lia]).
  rewrite !length_app, length_firstn, length_skipn. lia.
Qed.

Lemma nth_memwrite dst off bytes i :
  (off <= length dst)%nat ->
  nth i (memwrite dst off bytes) 0 =
  if (i <? off)%nat then nth i dst 0
  else if (i <? off + length bytes)%nat then nth (i - off) bytes 0
  else nth i dst 0.
Proof.
  intros H. unfold memwrite.
  assert (Hf : length (firstn off dst) = off) by (rewrite length_firstn; lia).
  destruct (Nat.ltb_spec i off) as [H1|H1].
  - rewrite app_nth1 by lia. rewrite nth_firstn.
    destruct (Nat.ltb_spec i off); [reflexivity|lia].
  - rewrite app_nth2 by lia. rewrite Hf.
    destruct (Nat.ltb_spec i (off + length bytes)) as [H2|H2].
    + rewrite app_nth1 by lia. reflexivity.
    + rewrite app_nth2 by lia. rewrite nth_skipn. f_equal. lia.
Qed.

Lemma memread_memwrite_same dst off bytes :
  (off <= length dst)%nat ->
  memread (memwrite dst off bytes) off (length bytes) = bytes.
Proof.
  intros H. apply list_eq_nth.
  - now rewrite length_memread.
  - intros i Hi. rewrite length_memread in Hi.
    rewrite nth_memread, nth_memwrite by assumption.
    destruct (Nat.ltb_spec (off + i) off); [lia|].
    destruct (Nat.ltb_spec (off + i) (off + length bytes)); [|lia].
    f_equal. lia.
Qed.

Lemma memread_memwrite_before dst off bytes p n :
  (off <= length dst)%nat -> (p + n <= off)%nat ->
  memread (memwrite dst off bytes) p n = memread dst p n.
Proof.
  intros H Hp. apply list_eq_nth.
  - now rewrite !length_memread.
  - intros i Hi. rewrite length_memread in Hi.
    rewrite !nth_memread, nth_memwrite by assumption.
    destruct (Nat.ltb_spec (p + i) off); [reflexivity|lia].
Qed.

(** ** The transmit loop *)

Lemma add_sends_nil s : add_sends [] s = s.
Proof. destruct s. unfold add_sends. cbn. now rewrite app_nil_r. Qed.

Lemma add_sends_cons e evs s :
  add_sends evs (add_sends [e] s) = add_sends (e :: evs) s.
Proof.
  unfold add_sends. cbn. f_equal.
  - lia.
  - now rewrite <- app_assoc.
Qed.

Lemma canbus_send_eq id len data s :
  canbus_send id len data s =
  (canbus_send_result (send_calls s),
   add_sends [EvSend id len data (canbus_send_result (send_calls s))] s).
Proof. reflexivity. Qed.

(** The loop of [canbus_tx_task], one iteration unfolded. *)
Lemma tx_loop_eq id tmax tpos s :
  tx_loop id tmax tpos s =
  let avail := s32 (u32 (tmax - tpos)) in
  let now := if avail >? 8 then 8 else avail in
  if avail <=? 0 then (tpos, s)
  else
    let r := canbus_send (u32 (id + 1)) now
               (memread (transmit_buf s) (Z.to_nat tpos) (Z.to_nat now)) s in
    if fst r <=? 0 then (tpos, snd r)
    else tx_loop id tmax (u32 (tpos + now)) (snd r).
Proof.
  simp tx_loop. cbv zeta.
  destruct (Z_le_dec (s32 (u32 (tmax - tpos))) 0) as [H|H]; cbn.
  - destruct (Z.leb_spec (s32 (u32 (tmax - tpos))) 0); [reflexivity|lia].
  - destruct (Z.leb_spec (s32 (u32 (tmax - tpos))) 0); [lia|reflexivity].
Qed.

Lemma chunks_of_nil fuel : chunks_of fuel [] = [].
Proof. now destruct fuel. Qed.

Lemma chunks_of_memread fuel buf p k :
  (0 < k)%nat ->
  chunks_of (S fuel) (memread buf p k) =
  memread buf p (Nat.min 8 k) :: chunks_of fuel (memread buf (p + 8) (k - 8)).
Proof.
  intros Hk.
  destruct (memread buf p k) as [|b l] eqn:E.
  - apply (f_equal (@length Z)) in E. rewrite length_memread in E.
    cbn in E. lia.
  - cbn [chunks_of]. rewrite <- E, firstn_memread, skipn_memread.
    reflexivity.
Qed.

Lemma tx_loop_refines id tmax fuel : forall tpos s,
  0 <= tpos <= tmax -> tmax < 2 ^ 31 ->
  (Z.to_nat (tmax - tpos) <= fuel)%nat ->
  let cs := chunks_of fuel (memread (transmit_buf s) (Z.to_nat tpos)
                                    (Z.to_nat (tmax - tpos))) in
  let r := send_chunks (u32 (id + 1)) cs (send_calls s) in
  tx_loop id tmax tpos s =
  (tpos + Z.of_nat (length (concat (firstn (snd r) cs))),
   add_sends (fst r) s).
Proof.
  induction fuel as [|fuel IH]; intros tpos s Hpos Hmax Hfuel; cbv zeta.
  - rewrite tx_loop_eq. cbv zeta.
    rewrite s32_u32_diff by lia.
    destruct (Z.leb_spec (tmax - tpos) 0); [|lia].
    cbn. now rewrite add_sends_nil, Z.add_0_r.
  - rewrite tx_loop_eq. cbv zeta.
    rewrite s32_u32_diff by lia.
    destruct (Z.leb_spec (tmax - tpos) 0) as [Hle|Hgt].
    + replace (Z.to_nat (tmax - tpos)) with 0%nat by lia.
      cbn. now rewrite add_sends_nil, Z.add_0_r.
    + set (now := if tmax - tpos >? 8 then 8 else tmax - tpos).
      assert (Hnow : Z.to_nat now = Nat.min 8 (Z.to_nat (tmax - tpos)) /\
                     1 <= now <= 8 /\ now <= tmax - tpos).
      { subst now. destruct (Z.gtb_spec (tmax - tpos) 8); lia. }
      destruct Hnow as (Hnat & Hrange & Hle).
      rewrite chunks_of_memread by lia.
      rewrite canbus_send_eq. cbn [fst snd send_chunks].
      rewrite <- Hnat, length_memread, Z2Nat.id by lia.
      set (ev := EvSend _ _ _ _).
      destruct (Z.leb_spec (canbus_send_result (send_calls s)) 0) as [Hr|Hr].
      * cbn. now rewrite Z.add_0_r.
      * rewrite u32_small by lia.
        assert (Hrest :
          memread (transmit_buf s) (Z.to_nat tpos + 8)
                  (Z.to_nat (tmax - tpos) - 8) =
          memread (transmit_buf (add_sends [ev] s)) (Z.to_nat (tpos + now))
                  (Z.to_nat (tmax - (tpos + now)))).
        { cbn [transmit_buf add_sends].
          destruct (Z.eq_dec now 8) as [E8|N8].
          - f_equal; lia.
          - replace (Z.to_nat (tmax - tpos) - 8)%nat with 0%nat by lia.
            replace (Z.to_nat (tmax - (tpos + now))) with 0%nat by lia.
            reflexivity. }
        rewrite Hrest.
        specialize (IH (tpos + now) (add_sends [ev] s)).
        cbv zeta in IH. rewrite IH by lia.
        cbn [fst snd firstn concat send_calls add_sends length Nat.add].
        rewrite length_app, length_memread, add_sends_cons.
        f_equal. lia.
Qed.

(** ** Chunks and the wire *)

Lemma firstn_plus (l : list Z) a b :
  firstn (a + b) l = firstn a l ++ firstn b (skipn a l).
Proof.
  rewrite <- (firstn_skipn a (firstn (a + b) l)).
  rewrite firstn_firstn, <- firstn_skipn_comm. f_equal. f_equal. lia.
Qed.

Lemma concat_firstn_chunks n : forall fuel l,
  (length l <= fuel)%nat ->
  concat (firstn n (chunks_of fuel l)) = firstn (8 * n) l.
Proof.
  induction n as [|n IH]; intros fuel l Hl.
  - reflexivity.
  - destruct fuel as [|fuel], l as [|b l]; try (cbn in Hl; lia);
      try (cbn [chunks_of]; now rewrite firstn_nil, firstn_nil).
    cbn [chunks_of firstn concat].
    rewrite IH by (rewrite length_skipn; cbn [length] in *; lia).
    replace (8 * S n)%nat with (8 + 8 * n)%nat by lia.
    now rewrite firstn_plus.
Qed.

Lemma chunks_of_sizes fuel : forall l,
  Forall (fun c => (1 <= length c <= 8)%nat) (chunks_of fuel l).
Proof.
  induction fuel as [|fuel IH]; intros l.
  - constructor.
  - destruct l as [|b l]; [constructor|].
    cbn [chunks_of]. constructor; [|apply IH].
    rewrite length_firstn. cbn [length]. lia.
Qed.

Lemma send_chunks_frames dst cs : forall n,
  Forall (fun c => (1 <= length c <= 8)%nat) cs ->
  Forall (data_frame dst) (fst (send_chunks dst cs n)).
Proof.
  induction cs as [|c cs IH]; intros n Hcs; cbn [send_chunks].
  - constructor.
  - inversion Hcs as [|? ? Hc Hrest]; subst.
    assert (data_frame dst
              (EvSend dst (Z.of_nat (length c)) c (canbus_send_result n)))
      by (cbn; lia).
    destruct (canbus_send_result n <=? 0); cbn [fst].
    + constructor; [assumption|constructor].
    + constructor; [assumption|]. now apply IH.
Qed.

Lemma wire_bytes_app dst tr1 tr2 :
  wire_bytes dst (tr1 ++ tr2) = wire_bytes dst tr1 ++ wire_bytes dst tr2.
Proof. unfold wire_bytes. now rewrite flat_map_app. Qed.

Lemma wire_bytes_send_chunks dst cs : forall n,
  wire_bytes dst (fst (send_chunks dst cs n)) =
  concat (firstn (snd (send_chunks dst cs n)) cs).
Proof.
  induction cs as [|c cs IH]; intros n; cbn [send_chunks].
  - reflexivity.
  - destruct (Z.leb_spec (canbus_send_result n) 0) as [Hr|Hr];
      cbn [fst snd firstn concat wire_bytes flat_map wire_payload].
    + destruct (Z.gtb_spec (canbus_send_result n) 0); [lia|].
      now rewrite andb_false_r.
    + destruct (Z.gtb_spec (canbus_send_result n) 0); [|lia].
      rewrite Z.eqb_refl. cbn [andb]. f_equal. apply IH.
Qed.

(** The calls [send_chunks] makes: every one but the last has a
    positive result; the run ends on a refused chunk or with all
    chunks accepted. *)
Lemma send_chunks_stops dst cs : forall n,
  let r := send_chunks dst cs n in
  (forall i, (i < snd r)%nat -> canbus_send_result (n + i) > 0) /\
  ((snd r = length cs /\ length (fst r) = length cs) \/
   ((snd r < length cs)%nat /\ length (fst r) = S (snd r) /\
    canbus_send_result (n + snd r) <= 0)).
Proof.
  induction cs as [|c cs IH]; intros n; cbn [send_chunks]; cbv zeta.
  - split; [intros i Hi; cbn in Hi; lia | left; now split].
  - destruct (Z.leb_spec (canbus_send_result n) 0) as [Hr|Hr];
      cbn [fst snd length].
    + split; [intros i Hi; lia|]. right.
      rewrite Nat.add_0_r. repeat split; [lia|assumption].
    + destruct (IH (S n)) as [Hpos Hend]. split.
      * intros [|i] Hi.
        -- rewrite Nat.add_0_r. lia.
        -- rewrite Nat.add_succ_r. apply (Hpos i). lia.
      * destruct Hend as [[E1 E2]|(E1 & E2 & E3)].
        -- left. split; congruence.
        -- right. rewrite Nat.add_succ_r. repeat split; [lia|lia|exact E3].
Qed.

(** ** The transmit task *)

Lemma canbus_tx_task_idle s :
  canbus_tx_wake s = false -> canbus_tx_task s = s.
Proof. intros H. unfold canbus_tx_task. now rewrite H. Qed.

Lemma canbus_tx_task_unassigned s :
  canbus_tx_wake s = true -> canbus_assigned_id s = 0 ->
  canbus_tx_task s =
  set_transmit_max 0 (set_transmit_pos 0 (set_tx_wake false s)).
Proof.
  intros Hw Hid. unfold canbus_tx_task. rewrite Hw. cbn [negb].
  cbn [canbus_assigned_id set_tx_wake]. now rewrite Hid.
Qed.

Lemma length_concat_firstn_chunks n l :
  (length (concat (firstn n (chunks8 l))) <= length l)%nat.
Proof.
  unfold chunks8. rewrite concat_firstn_chunks by lia.
  rewrite length_firstn. lia.
Qed.

Lemma canbus_tx_task_refines s :
  canbus_tx_wake s = true -> canbus_assigned_id s <> 0 ->
  0 <= transmit_pos s < 2 ^ 8 -> 0 <= transmit_max s < 2 ^ 8 ->
  let cs := chunks8 (unsent s) in
  let r := send_chunks (u32 (canbus_assigned_id s + 1)) cs (send_calls s) in
  canbus_tx_task s =
  set_transmit_pos
    (transmit_pos s + Z.of_nat (length (concat (firstn (snd r) cs))))
    (add_sends (fst r) (set_tx_wake false s)).
Proof.
  intros Hw Hid Hpos Hmax. cbv zeta.
  unfold canbus_tx_task. rewrite Hw. cbn [negb].
  cbn [canbus_assigned_id transmit_pos transmit_max set_tx_wake].
  destruct (Z.eqb_spec (canbus_assigned_id s) 0) as [|_]; [contradiction|].
  destruct (Z_le_gt_dec (transmit_pos s) (transmit_max s)) as [Hle|Hgt].
  - pose proof (tx_loop_refines (canbus_assigned_id s) (transmit_max s)
                  (Z.to_nat (transmit_max s - transmit_pos s))
                  (transmit_pos s) (set_tx_wake false s)) as E.
    cbv zeta in E. rewrite E by lia. clear E.
    cbn [fst snd transmit_buf send_calls set_tx_wake].
    pose proof (length_concat_firstn_chunks
                  (snd (send_chunks (u32 (canbus_assigned_id s + 1))
                          (chunks8 (unsent s)) (send_calls s)))
                  (unsent s)) as Hlen.
    unfold chunks8, unsent in *. rewrite length_memread in *.
    rewrite u8_small by lia. reflexivity.
  - rewrite tx_loop_eq. cbv zeta. rewrite s32_u32_diff by lia.
    destruct (Z.leb_spec (transmit_max s - transmit_pos s) 0); [|lia].
    cbn [fst snd]. unfold unsent.
    replace (Z.to_nat (transmit_max s - transmit_pos s)) with 0%nat by lia.
    cbn. rewrite add_sends_nil, Z.add_0_r, u8_small by lia. reflexivity.
Qed.

(** What a run of the task puts on the wire is taken from the front
    of the unsent region; the rest stays buffered. *)
Lemma canbus_tx_task_wire s :
  canbus_assigned_id s <> 0 ->
  0 <= transmit_pos s < 2 ^ 8 -> 0 <= transmit_max s < 2 ^ 8 ->
  let dst := u32 (canbus_assigned_id s + 1) in
  let s' := canbus_tx_task s in
  wire_bytes dst (trace s') ++ unsent s' =
    wire_bytes dst (trace s) ++ unsent s /\
  (exists evs, trace s' = trace s ++ evs /\ Forall (data_frame dst) evs) /\
  transmit_pos s <= transmit_pos s' /\
  (transmit_pos s <= transmit_max s -> transmit_pos s' <= transmit_max s) /\
  transmit_max s' = transmit_max s /\
  transmit_buf s' = transmit_buf s /\
  canbus_assigned_id s' = canbus_assigned_id s.
Proof.
  intros Hid Hpos Hmax. cbv zeta.
  destruct (canbus_tx_wake s) eqn:Hw.
  2:{ rewrite canbus_tx_task_idle by assumption.
      repeat split; try lia.
      exists []. now rewrite app_nil_r. }
  rewrite canbus_tx_task_refines by assumption.
  set (dst := u32 (canbus_assigned_id s + 1)).
  set (r := send_chunks dst (chunks8 (unsent s)) (send_calls s)).
  cbn [trace transmit_pos transmit_max transmit_buf canbus_assigned_id
       set_transmit_pos add_sends set_tx_wake].
  pose proof (length_concat_firstn_chunks (snd r) (unsent s)) as Hlen.
  assert (Hk : length (unsent s) =
               Z.to_nat (transmit_max s - transmit_pos s))
    by (unfold unsent; now rewrite length_memread).
  repeat split; try lia.
  - rewrite wire_bytes_app, <- app_assoc. f_equal.
    subst r. rewrite wire_bytes_send_chunks.
    set (n := snd (send_chunks dst (chunks8 (unsent s)) (send_calls s))) in *.
    set (c := concat (firstn n (chunks8 (unsent s)))) in *.
    set (k := Z.to_nat (transmit_max s - transmit_pos s)) in *.
    assert (Hc : c = memread (transmit_buf s) (Z.to_nat (transmit_pos s))
                             (length c)).
    { assert (E : c = firstn (8 * n) (unsent s))
        by (subst c; unfold chunks8; now rewrite concat_firstn_chunks by lia).
      rewrite E at 2. rewrite length_firstn, Hk.
      rewrite E. unfold unsent. fold k. rewrite firstn_memread.
      f_equal; lia. }
    rewrite Hc at 1. unfold unsent.
    cbn [trace transmit_pos transmit_max transmit_buf
         set_transmit_pos add_sends set_tx_wake].
    fold k.
    replace (memread (transmit_buf s) (Z.to_nat (transmit_pos s)) k)
      with (memread (transmit_buf s) (Z.to_nat (transmit_pos s))
                    (length c + (k - length c))) by (f_equal; lia).
    rewrite memread_split. f_equal. f_equal; lia.
  - exists (fst r). split; [reflexivity|].
    apply send_chunks_frames, chunks_of_sizes.
Qed.

(** ** Enqueue *)

Ltac fields :=
  cbn [canbus_assigned_id canbus_uuid canbus_tx_wake transmit_buf transmit_pos
       transmit_max canbus_rx_wake receive_buf receive_pos send_calls trace
       set_assigned_id set_uuid set_tx_wake set_transmit_buf set_transmit_pos
       set_transmit_max set_rx_wake set_receive_buf set_receive_pos
       count_send log add_sends canbus_notify_tx canbus_notify_rx
       canbus_set_filter] in *.

Lemma memread_emit buf p k msg :
  (p + k <= length buf)%nat ->
  memread (memwrite buf (p + k) msg) p (k + length msg) =
  memread buf p k ++ msg.
Proof.
  intros H. rewrite memread_split. f_equal.
  - apply memread_memwrite_before; lia.
  - apply memread_memwrite_same; lia.
Qed.

Lemma memread_memmove_down buf p k :
  memread (memmove_down buf p k) 0 k = memread buf p k.
Proof.
  unfold memmove_down.
  rewrite <- (length_memread buf p k) at 2.
  apply memread_memwrite_same. lia.
Qed.

Lemma length_memmove_down buf p k :
  (k <= length buf)%nat -> length (memmove_down buf p k) = length buf.
Proof.
  intros H. unfold memmove_down. apply length_memwrite.
  rewrite length_memread. lia.
Qed.

(** The message does not fit even after compaction: nothing but the
    reset of drained cursors happens. *)
Lemma console_sendf_rejects ce args s :
  0 <= transmit_pos s < 2 ^ 8 -> 0 <= transmit_max s < 2 ^ 8 ->
  0 <= max_size ce <= 2 ^ 32 - 2 ^ 8 ->
  transmit_max s - transmit_pos s + max_size ce > sizeof_transmit_buf ->
  console_sendf ce args s = sendf_reset s.
Proof.
  intros Hpos Hmax Hms Hfull. unfold console_sendf, sendf_reset.
  unfold sizeof_transmit_buf in *.
  destruct (Z.geb_spec (transmit_pos s) (transmit_max s)) as [Hge|Hlt].
  - rewrite (u32_small (max_size ce)) by lia.
    rewrite !Z.add_0_l, Z.sub_0_r, !(u32_small (max_size ce)) by lia.
    destruct (Z.gtb_spec (max_size ce) 96); [reflexivity|lia].
  - rewrite (u32_small (max_size ce)) by lia.
    rewrite (u32_small (transmit_max s + max_size ce)) by lia.
    rewrite u32_small by lia.
    destruct (Z.gtb_spec (transmit_max s + max_size ce) 96); [|lia].
    destruct (Z.gtb_spec (transmit_max s + max_size ce - transmit_pos s) 96);
      [reflexivity|lia].
Qed.

(** The message fits, possibly after compaction: it is appended to
    the unsent bytes and the task is signalled. *)
Lemma console_sendf_accepts ce args s :
  tx_inv s ->
  Z.of_nat (length (transmit_buf s)) = sizeof_transmit_buf ->
  encoder_ok ce args ->
  transmit_max s - transmit_pos s + max_size ce <= sizeof_transmit_buf ->
  let s' := console_sendf ce args s in
  let msg := command_encode_and_frame ce args in
  unsent s' = unsent s ++ msg /\
  0 <= transmit_pos s' <= transmit_pos s /\
  transmit_max s' =
    transmit_pos s' + (transmit_max s - transmit_pos s)
    + Z.of_nat (length msg) /\
  transmit_max s' <= sizeof_transmit_buf /\
  length (transmit_buf s') = length (transmit_buf s) /\
  canbus_tx_wake s' = true /\
  trace s' = trace s /\
  canbus_assigned_id s' = canbus_assigned_id s.
Proof.
  intros [Hpos Hmax] Hbuf [Hms Hlen] Hfit. cbv zeta.
  set (msg := command_encode_and_frame ce args) in *.
  unfold console_sendf, sendf_emit, unsent, sizeof_transmit_buf in *.
  fold msg.
  rewrite (u32_small (max_size ce)) by lia.
  rewrite (u32_small (Z.of_nat (length msg))) by lia.
  destruct (Z.geb_spec (transmit_pos s) (transmit_max s)) as [Hge|Hlt].
  - (* drained: both cursors back to 0 *)
    rewrite Z.add_0_l, (u32_small (max_size ce)) by lia.
    destruct (Z.gtb_spec (max_size ce) 96); [lia|].
    fields. rewrite Z.add_0_l, u8_small by lia.
    replace (transmit_max s - transmit_pos s) with 0 by lia.
    rewrite Z.sub_0_r, Nat2Z.id. cbn [Z.to_nat].
    repeat split; try lia.
    + rewrite memread_nil. cbn [app].
      apply (memread_memwrite_same (transmit_buf s) 0 msg). lia.
    + apply length_memwrite. lia.
  - rewrite (u32_small (transmit_max s + max_size ce)) by lia.
    destruct (Z.gtb_spec (transmit_max s + max_size ce) 96) as [Hmove|Hroom].
    + (* move buffer *)
      rewrite (u32_small (transmit_max s + max_size ce - transmit_pos s))
        by lia.
      destruct (Z.gtb_spec (transmit_max s + max_size ce - transmit_pos s) 96);
        [lia|].
      rewrite (u32_small (transmit_max s - transmit_pos s)) by lia.
      fields. rewrite u8_small by lia.
      set (k := Z.to_nat (transmit_max s - transmit_pos s)).
      set (p := Z.to_nat (transmit_pos s)).
      assert (Hk : (k <= length (transmit_buf s))%nat) by lia.
      repeat split; try lia.
      * replace (Z.to_nat (transmit_max s - transmit_pos s
                          + Z.of_nat (length msg) - 0))
          with (k + length msg)%nat by lia.
        cbn [Z.to_nat].
        pose proof (memread_emit (memmove_down (transmit_buf s) p k) 0 k msg)
          as E.
        cbn [Nat.add] in E. rewrite E by (rewrite length_memmove_down; lia).
        now rewrite memread_memmove_down.
      * rewrite length_memwrite; rewrite length_memmove_down; lia.
    + (* room after limit *)
      fields. rewrite u8_small by lia.
      set (k := Z.to_nat (transmit_max s - transmit_pos s)).
      set (p := Z.to_nat (transmit_pos s)).
      repeat split; try lia.
      * replace (Z.to_nat (transmit_max s + Z.of_nat (length msg)
                          - transmit_pos s))
          with (k + length msg)%nat by lia.
        replace (Z.to_nat (transmit_max s)) with (p + k)%nat by lia.
        apply memread_emit. lia.
      * apply length_memwrite. lia.
Qed.

Lemma console_sendf_cursors ce args s :
  tx_inv s -> encoder_ok ce args -> tx_inv (console_sendf ce args s).
Proof.
  intros [Hpos Hmax] [Hms Hlen].
  destruct (Z_le_gt_dec (transmit_max s - transmit_pos s + max_size ce)
                        sizeof_transmit_buf) as [Hfit|Hfull].
  - unfold tx_inv, console_sendf, sendf_emit, sizeof_transmit_buf in *.
    set (msg := command_encode_and_frame ce args) in *.
    rewrite (u32_small (max_size ce)) by lia.
    rewrite (u32_small (Z.of_nat (length msg))) by lia.
    destruct (Z.geb_spec (transmit_pos s) (transmit_max s)) as [Hge|Hlt].
    + rewrite Z.add_0_l, (u32_small (max_size ce)) by lia.
      destruct (Z.gtb_spec (max_size ce) 96); [lia|].
      fields. rewrite Z.add_0_l, u8_small by lia. lia.
    + rewrite (u32_small (transmit_max s + max_size ce)) by lia.
      destruct (Z.gtb_spec (transmit_max s + max_size ce) 96).
      * rewrite (u32_small (transmit_max s + max_size ce - transmit_pos s))
          by lia.
        destruct (Z.gtb_spec (transmit_max s + max_size ce - transmit_pos s)
                             96); [lia|].
        rewrite (u32_small (transmit_max s - transmit_pos s)) by lia.
        fields. rewrite u8_small by lia. lia.
      * fields. rewrite u8_small by lia. lia.
  - unfold tx_inv, sizeof_transmit_buf in *.
    rewrite console_sendf_rejects by (unfold sizeof_transmit_buf; lia).
    unfold sendf_reset.
    destruct (transmit_pos s >=? transmit_max s); fields; lia.
Qed.

Lemma canbus_tx_task_cursors s : tx_inv s -> tx_inv (canbus_tx_task s).
Proof.
  intros [Hpos Hmax]. unfold tx_inv, sizeof_transmit_buf in *.
  destruct (canbus_tx_wake s) eqn:Hw.
  - destruct (Z.eq_dec (canbus_assigned_id s) 0) as [Hid|Hid].
    + rewrite canbus_tx_task_unassigned by assumption. fields. lia.
    + destruct (canbus_tx_task_wire s Hid) as (_ & _ & H1 & H2 & H3 & _);
        lia.
  - rewrite canbus_tx_task_idle by assumption. lia.
Qed.

Lemma reserved_size_nonneg ops : Forall op_ok ops -> 0 <= reserved_size ops.
Proof.
  induction 1 as [|op ops Hop _ IH]; cbn [reserved_size fold_right].
  - lia.
  - fold (reserved_size ops). destruct op as [ce args|]; [|assumption].
    destruct Hop as [Hms _]. lia.
Qed.

Lemma run_tx_ops_cursors ops : forall s,
  Forall op_ok ops -> tx_inv s -> tx_inv (run_tx_ops ops s).
Proof.
  induction ops as [|op ops IH]; intros s Hok Hinv.
  - exact Hinv.
  - inversion Hok as [|? ? Hop Hrest]; subst.
    cbn [run_tx_ops fold_left]. apply IH; [assumption|].
    destruct op as [ce args|]; cbn [run_tx_op].
    + now apply console_sendf_cursors.
    + now apply canbus_tx_task_cursors.
Qed.

Lemma console_sendf_assigned_id ce args s :
  canbus_assigned_id (console_sendf ce args s) = canbus_assigned_id s.
Proof.
  unfold console_sendf, sendf_emit.
  repeat match goal with
         | |- context [if ?b then _ else _] => destruct b
         end; reflexivity.
Qed.

(** One operation of the transmit pipeline: the invariants stay, and
    wire bytes followed by unsent bytes grow by what the operation
    buffered. *)
Lemma run_tx_op_step op s :
  tx_inv s ->
  Z.of_nat (length (transmit_buf s)) = sizeof_transmit_buf ->
  canbus_assigned_id s <> 0 ->
  op_ok op ->
  let dst := u32 (canbus_assigned_id s + 1) in
  let s1 := run_tx_op op s in
  tx_inv s1 /\
  Z.of_nat (length (transmit_buf s1)) = sizeof_transmit_buf /\
  canbus_assigned_id s1 = canbus_assigned_id s /\
  wire_bytes dst (trace s1) ++ unsent s1 =
    wire_bytes dst (trace s) ++ unsent s ++ buffered_by op s /\
  (exists evs, trace s1 = trace s ++ evs /\ Forall (data_frame dst) evs) /\
  transmit_max s1 - transmit_pos s1 =
    transmit_max s - transmit_pos s + Z.of_nat (length (buffered_by op s))
    - Z.of_nat (length (wire_bytes dst (trace s1)))
    + Z.of_nat (length (wire_bytes dst (trace s))).
Proof.
  intros Hinv Hbuf Hid Hop. cbv zeta.
  assert (Hlen : forall s0, tx_inv s0 ->
            Z.of_nat (length (unsent s0)) = transmit_max s0 - transmit_pos s0).
  { intros s0 [? ?]. unfold unsent. rewrite length_memread. lia. }
  assert (Hdelta : forall s1 extra,
            tx_inv s1 ->
            wire_bytes (u32 (canbus_assigned_id s + 1)) (trace s1) ++ unsent s1 =
              wire_bytes (u32 (canbus_assigned_id s + 1)) (trace s)
                ++ unsent s ++ extra ->
            transmit_max s1 - transmit_pos s1 =
              transmit_max s - transmit_pos s + Z.of_nat (length extra)
              - Z.of_nat (length (wire_bytes (u32 (canbus_assigned_id s + 1))
                                             (trace s1)))
              + Z.of_nat (length (wire_bytes (u32 (canbus_assigned_id s + 1))
                                             (trace s)))).
  { intros s1 extra Hinv1 E. apply (f_equal (@length Z)) in E.
    rewrite !length_app in E.
    pose proof (Hlen s Hinv). pose proof (Hlen s1 Hinv1). lia. }
  destruct op as [ce args|]; cbn [run_tx_op buffered_by op_ok] in *.
  - pose proof (console_sendf_cursors ce args s Hinv Hop) as Hinv1.
    pose proof (console_sendf_assigned_id ce args s) as Hid1.
    destruct (Z.leb_spec (transmit_max s - transmit_pos s + max_size ce)
                         sizeof_transmit_buf) as [Hfit|Hfull].
    + destruct (console_sendf_accepts ce args s Hinv Hbuf Hop Hfit)
        as (Hu & _ & _ & _ & Hl & _ & Htr & _).
      cbv zeta in *.
      assert (E : wire_bytes (u32 (canbus_assigned_id s + 1))
                    (trace (console_sendf ce args s))
                  ++ unsent (console_sendf ce args s) =
                  wire_bytes (u32 (canbus_assigned_id s + 1)) (trace s)
                  ++ unsent s ++ command_encode_and_frame ce args)
        by (rewrite Hu, Htr; reflexivity).
      repeat split; try apply Hinv1; try assumption; try congruence.
      * exists []. rewrite app_nil_r. now split.
      * now apply Hdelta.
    + destruct Hinv as [Hpos Hmax]. destruct Hop as [Hms _].
      unfold sizeof_transmit_buf in *.
      assert (E0 : console_sendf ce args s = sendf_reset s)
        by (apply console_sendf_rejects;
            unfold sizeof_transmit_buf; lia).
      assert (Hu : unsent (sendf_reset s) = unsent s /\
                   trace (sendf_reset s) = trace s /\
                   transmit_buf (sendf_reset s) = transmit_buf s).
      { unfold sendf_reset, unsent.
        destruct (Z.geb_spec (transmit_pos s) (transmit_max s));
          [|now repeat split].
        fields. repeat split.
        replace (Z.to_nat (transmit_max s - transmit_pos s)) with 0%nat by lia.
        reflexivity. }
      destruct Hu as (Hu & Htr & Hb).
      rewrite E0 in *.
      assert (E : wire_bytes (u32 (canbus_assigned_id s + 1))
                    (trace (sendf_reset s)) ++ unsent (sendf_reset s) =
                  wire_bytes (u32 (canbus_assigned_id s + 1)) (trace s)
                  ++ unsent s ++ [])
        by (rewrite Hu, Htr, app_nil_r; reflexivity).
      repeat split; try apply Hinv1; try assumption; try congruence.
      * exists []. rewrite app_nil_r. now split.
      * now apply Hdelta.
  - pose proof (canbus_tx_task_cursors s Hinv) as Hinv1.
    destruct Hinv as [Hpos Hmax]. unfold sizeof_transmit_buf in *.
    destruct (canbus_tx_task_wire s Hid)
      as (Hw1 & He1 & _ & _ & _ & Hb1 & Hid1); try lia.
    cbv zeta in *.
    assert (E : wire_bytes (u32 (canbus_assigned_id s + 1))
                  (trace (canbus_tx_task s)) ++ unsent (canbus_tx_task s) =
                wire_bytes (u32 (canbus_assigned_id s + 1)) (trace s)
                ++ unsent s ++ [])
      by (rewrite Hw1, app_nil_r; reflexivity).
    repeat split; try apply Hinv1; try assumption; try congruence.
    apply Hdelta; [assumption|exact E].
Qed.

(** The transmit pipeline is a FIFO: whatever the interleaving of
    enqueues and task runs, the bytes on the wire followed by the
    bytes still buffered are the bytes that were buffered, in
    order. *)
Lemma run_tx_ops_fifo_buffered ops : forall s,
  tx_inv s ->
  Z.of_nat (length (transmit_buf s)) = sizeof_transmit_buf ->
  canbus_assigned_id s <> 0 ->
  Forall op_ok ops ->
  let dst := u32 (canbus_assigned_id s + 1) in
  let s' := run_tx_ops ops s in
  wire_bytes dst (trace s') ++ unsent s' =
    wire_bytes dst (trace s) ++ unsent s ++ buffered_bytes ops s /\
  (exists evs, trace s' = trace s ++ evs /\ Forall (data_frame dst) evs).
Proof.
  induction ops as [|op ops IH]; intros s Hinv Hbuf Hid Hok; cbv zeta.
  - cbn [run_tx_ops fold_left buffered_bytes].
    rewrite app_nil_r. split; [reflexivity|].
    exists []. now rewrite app_nil_r.
  - inversion Hok as [|? ? Hop Hrest]; subst.
    cbn [run_tx_ops fold_left buffered_bytes].
    fold (run_tx_ops ops (run_tx_op op s)).
    destruct (run_tx_op_step op s Hinv Hbuf Hid Hop)
      as (Hinv1 & Hbuf1 & Hid1 & Hw1 & (evs1 & He1 & Hf1) & _).
    cbv zeta in *.
    assert (Hnz : canbus_assigned_id (run_tx_op op s) <> 0) by congruence.
    destruct (IH _ Hinv1 Hbuf1 Hnz Hrest) as [Hw (evs & He & Hf)].
    rewrite Hid1 in *. split.
    + rewrite Hw, app_assoc, Hw1, <- !app_assoc. reflexivity.
    + exists (evs1 ++ evs). split.
      * rewrite He, He1, <- app_assoc. reflexivity.
      * apply Forall_app. now split.
Qed.

(** When the declared sizes fit into the free space, every enqueue is
    buffered. *)
Lemma buffered_bytes_fit ops : forall s,
  tx_inv s ->
  Z.of_nat (length (transmit_buf s)) = sizeof_transmit_buf ->
  canbus_assigned_id s <> 0 ->
  Forall op_ok ops ->
  transmit_max s - transmit_pos s + reserved_size ops
    <= sizeof_transmit_buf ->
  buffered_bytes ops s = enqueued_bytes ops.
Proof.
  induction ops as [|op ops IH]; intros s Hinv Hbuf Hid Hok Hfit.
  - reflexivity.
  - inversion Hok as [|? ? Hop Hrest]; subst.
    pose proof (reserved_size_nonneg _ Hrest) as Hres.
    cbn [buffered_bytes enqueued_bytes flat_map].
    fold (enqueued_bytes ops).
    destruct (run_tx_op_step op s Hinv Hbuf Hid Hop)
      as (Hinv1 & Hbuf1 & Hid1 & Hw1 & (evs1 & He1 & _) & Hd).
    cbv zeta in *.
    assert (Hnz : canbus_assigned_id (run_tx_op op s) <> 0) by congruence.
    assert (Hgrow : (length (wire_bytes (u32 (canbus_assigned_id s + 1))
                               (trace s)) <=
                     length (wire_bytes (u32 (canbus_assigned_id s + 1))
                               (trace (run_tx_op op s))))%nat)
      by (rewrite He1, wire_bytes_app, length_app; lia).
    destruct op as [ce args|];
      cbn [buffered_by reserved_size fold_right op_ok] in *;
      fold (reserved_size ops) in *.
    + destruct Hop as [Hms Hmsg].
      destruct (Z.leb_spec (transmit_max s - transmit_pos s + max_size ce)
                           sizeof_transmit_buf); [|lia].
      f_equal. apply IH; try assumption. lia.
    + cbn [app]. apply IH; try assumption. cbn [length] in Hd. lia.
Qed.

Lemma run_tx_ops_fifo ops s :
  tx_inv s ->
  Z.of_nat (length (transmit_buf s)) = sizeof_transmit_buf ->
  canbus_assigned_id s <> 0 ->
  Forall op_ok ops ->
  transmit_max s - transmit_pos s + reserved_size ops
    <= sizeof_transmit_buf ->
  let dst := u32 (canbus_assigned_id s + 1) in
  let s' := run_tx_ops ops s in
  wire_bytes dst (trace s') ++ unsent s' =
    wire_bytes dst (trace s) ++ unsent s ++ enqueued_bytes ops /\
  (exists evs, trace s' = trace s ++ evs /\ Forall (data_frame dst) evs).
Proof.
  intros Hinv Hbuf Hid Hok Hfit.
  rewrite <- (buffered_bytes_fit ops s Hinv Hbuf Hid Hok Hfit).
  now apply run_tx_ops_fifo_buffered.
Qed.

Lemma concat_chunks_of fuel : forall l,
  (length l <= fuel)%nat -> concat (chunks_of fuel l) = l.
Proof.
  induction fuel as [|fuel IH]; intros l Hl.
  - destruct l; [reflexivity|cbn in Hl; lia].
  - destruct l as [|b l]; [reflexivity|].
    cbn [chunks_of concat].
    rewrite IH by (rewrite length_skipn; cbn [length] in *; lia).
    apply firstn_skipn.
Qed.

(** A driver that takes every frame lets one run of the task empty
    the buffer. *)
Lemma canbus_tx_task_flushes s :
  (forall n, canbus_send_result n > 0) ->
  canbus_tx_wake s = true -> canbus_assigned_id s <> 0 ->
  0 <= transmit_pos s < 2 ^ 8 -> 0 <= transmit_max s < 2 ^ 8 ->
  unsent (canbus_tx_task s) = [].
Proof.
  intros Hacc Hw Hid Hpos Hmax.
  rewrite canbus_tx_task_refines by assumption.
  set (cs := chunks8 (unsent s)).
  set (r := send_chunks _ cs _).
  destruct (send_chunks_stops (u32 (canbus_assigned_id s + 1)) cs
              (send_calls s)) as [_ [[Hall _]|(_ & _ & Hrej)]].
  - fold r in Hall. rewrite Hall, firstn_all.
    subst cs. unfold chunks8. rewrite concat_chunks_of by lia.
    unfold unsent at 1. fields.
    unfold unsent. rewrite length_memread.
    apply length_zero_iff_nil. rewrite length_memread. lia.
  - specialize (Hacc (send_calls s + snd (send_chunks
                        (u32 (canbus_assigned_id s + 1)) cs (send_calls s)))%nat).
    lia.
Qed.

(** ** The admin protocol *)

Lemma can_decode_id_byte e : is_byte e -> can_decode_id e = 2 * e + 0x100.
Proof.
  intros He. unfold is_byte in He. unfold can_decode_id.
  rewrite Z.shiftl_mul_pow2 by lia. rewrite u32_small; lia.
Qed.

Lemma can_encode_decode_byte e s :
  is_byte e -> canbus_assigned_id s = can_decode_id e ->
  can_encode_id s = e.
Proof.
  intros He Hid. unfold can_encode_id. rewrite Hid, can_decode_id_byte by assumption.
  unfold is_byte in He.
  destruct (Z.eqb_spec (2 * e + 0x100) 0); [lia|].
  replace (2 * e + 0x100 - 0x100) with (2 * e) by lia.
  rewrite u32_small by lia.
  rewrite Z.shiftr_div_pow2 by lia.
  replace (2 * e / 2 ^ 1) with e
    by (change (2 ^ 1) with 2; rewrite Z.mul_comm, Z.div_mul by lia;
        reflexivity).
  apply s32_small. lia.
Qed.

Lemma can_send_uuid_eq fuel s :
  can_send_uuid fuel s =
  send_retry fuel
    (response_frame (if canbus_assigned_id s =? 0
                     then CANBUS_RESP_NEED_CANID else CANBUS_RESP_HAVE_CANID)
                    (canbus_uuid s) (u8 (can_encode_id s))) s.
Proof.
  unfold can_send_uuid, response_frame.
  destruct (canbus_assigned_id s =? 0); reflexivity.
Qed.

Lemma send_retry_returns data k : forall fuel s,
  accepts_after (send_calls s) k -> (k < fuel)%nat ->
  send_retry fuel data s =
  Returned (add_sends (response_sends data (send_calls s) k) s).
Proof.
  induction k as [|k IH]; intros fuel s [Hneg Hacc] Hfuel;
    (destruct fuel as [|fuel]; [lia|]); cbn [send_retry].
  - rewrite canbus_send_eq. cbn [fst snd].
    rewrite Nat.add_0_r in Hacc.
    destruct (Z.geb_spec (canbus_send_result (send_calls s)) 0); [|lia].
    unfold response_sends. cbn [refused_sends app].
    now rewrite Nat.add_0_r.
  - rewrite canbus_send_eq. cbn [fst snd].
    pose proof (Hneg 0%nat ltac:(lia)) as H0. rewrite Nat.add_0_r in H0.
    destruct (Z.geb_spec (canbus_send_result (send_calls s)) 0); [lia|].
    rewrite IH.
    + rewrite add_sends_cons. unfold response_sends.
      cbn [refused_sends app send_calls add_sends length Nat.add].
      now rewrite Nat.add_succ_r.
    + cbn [send_calls add_sends length Nat.add]. split.
      * intros i Hi. specialize (Hneg (S i) ltac:(lia)).
        now rewrite Nat.add_succ_r in Hneg.
      * now rewrite Nat.add_succ_r in Hacc.
    + lia.
Qed.

Lemma same_buffers_refl s : same_buffers s s.
Proof. repeat split. Qed.

Lemma same_buffers_trans s1 s2 s3 :
  same_buffers s1 s2 -> same_buffers s2 s3 -> same_buffers s1 s3.
Proof. unfold same_buffers. intuition congruence. Qed.

(** The retry loop touches nothing but the record of driver calls,
    whether or not it comes to an end. *)
Lemma send_retry_frame data fuel : forall s,
  let s' := final_state (send_retry fuel data s) in
  same_buffers s s' /\ canbus_assigned_id s' = canbus_assigned_id s /\
  shutdown_calls (trace s') = shutdown_calls (trace s) /\
  (forall s1, send_retry fuel data s <> ShutDown s1) /\
  (forall s1, send_retry fuel data s <> Rebooted s1).
Proof.
  induction fuel as [|fuel IH]; intros s; cbv zeta; cbn [send_retry].
  - cbn [final_state]. repeat split; discriminate.
  - rewrite canbus_send_eq. cbn [fst snd].
    set (s1 := add_sends _ s).
    assert (H1 : same_buffers s s1 /\
                 canbus_assigned_id s1 = canbus_assigned_id s /\
                 shutdown_calls (trace s1) = shutdown_calls (trace s)).
    { subst s1. repeat split. fields. unfold shutdown_calls.
      rewrite flat_map_app. cbn. now rewrite app_nil_r. }
    destruct H1 as (Hb & Hi & Hs).
    destruct (canbus_send_result (send_calls s) >=? 0).
    + cbn [final_state]. repeat split; try apply Hb; try assumption;
        discriminate.
    + destruct (IH s1) as (Hb' & Hi' & Hs' & Hn1 & Hn2). cbv zeta in *.
      repeat split; try (eapply same_buffers_trans; eassumption);
        try congruence; try apply Hn1; try apply Hn2.
      all: destruct Hb as (? & ? & ? & ? & ? & ? & ? & ?);
           destruct Hb' as (? & ? & ? & ? & ? & ? & ? & ?); congruence.
Qed.

Lemma can_send_uuid_frame fuel s :
  let s' := final_state (can_send_uuid fuel s) in
  same_buffers s s' /\ canbus_assigned_id s' = canbus_assigned_id s /\
  shutdown_calls (trace s') = shutdown_calls (trace s) /\
  (forall s1, can_send_uuid fuel s <> ShutDown s1) /\
  (forall s1, can_send_uuid fuel s <> Rebooted s1).
Proof. rewrite can_send_uuid_eq. apply send_retry_frame. Qed.

Lemma can_send_uuid_returns fuel k s :
  accepts_after (send_calls s) k -> (k < fuel)%nat ->
  can_send_uuid fuel s =
  Returned
    (add_sends
       (response_sends
          (response_frame (if canbus_assigned_id s =? 0
                           then CANBUS_RESP_NEED_CANID
                           else CANBUS_RESP_HAVE_CANID)
                          (canbus_uuid s) (u8 (can_encode_id s)))
          (send_calls s) k) s).
Proof.
  intros Hacc Hfuel. rewrite can_send_uuid_eq.
  now apply send_retry_returns.
Qed.

Lemma accepted_frames_app tr1 tr2 :
  accepted_frames (tr1 ++ tr2) = accepted_frames tr1 ++ accepted_frames tr2.
Proof. unfold accepted_frames. now rewrite flat_map_app. Qed.

Lemma shutdown_calls_app tr1 tr2 :
  shutdown_calls (tr1 ++ tr2) = shutdown_calls tr1 ++ shutdown_calls tr2.
Proof. unfold shutdown_calls. now rewrite flat_map_app. Qed.

Lemma filter_calls_app tr1 tr2 :
  filter_calls (tr1 ++ tr2) = filter_calls tr1 ++ filter_calls tr2.
Proof. unfold filter_calls. now rewrite flat_map_app. Qed.

(** Of the driver calls of one [can_send_uuid], exactly the last one
    puts a frame on the bus; none is a filter or shutdown call. *)
Lemma response_sends_one_frame data k : forall n,
  accepts_after n k ->
  accepted_frames (response_sends data n k) = [(CANBUS_ID_ADMIN_RESP, data)] /\
  shutdown_calls (response_sends data n k) = [] /\
  filter_calls (response_sends data n k) = [].
Proof.
  unfold response_sends.
  induction k as [|k IH]; intros n [Hneg Hacc]; cbn [refused_sends app].
  - cbn. destruct (Z.geb_spec (canbus_send_result (n + 0)) 0); [|lia].
    repeat split.
  - pose proof (Hneg 0%nat ltac:(lia)) as H0. rewrite Nat.add_0_r in H0.
    destruct (IH (S n)) as (Ha & Hs & Hf).
    { split.
      - intros i Hi. specialize (Hneg (S i) ltac:(lia)).
        now rewrite Nat.add_succ_r in Hneg.
      - now rewrite Nat.add_succ_r in Hacc. }
    rewrite Nat.add_succ_r. cbn [Nat.add] in Ha, Hs, Hf.
    cbn [accepted_frames shutdown_calls filter_calls flat_map].
    destruct (Z.geb_spec (canbus_send_result n) 0); [lia|].
    cbn [app]. repeat split; assumption.
Qed.

Lemma can_process_set_canid_dispatch fuel id len data s :
  len <> 0 -> nth 0 data 0 = CANBUS_CMD_SET_CANID ->
  can_process fuel id len data s = can_process_set_canid fuel id len data s.
Proof.
  intros Hlen Hcmd. unfold can_process. rewrite Hcmd.
  destruct (Z.eqb_spec len 0); [contradiction|]. reflexivity.
Qed.

(** No admin command touches the buffers, their cursors, the wake
    flags or the UUID. *)
Lemma can_process_frame fuel id len data s :
  same_buffers s (final_state (can_process fuel id len data s)).
Proof.
  assert (Hsend : forall s0, same_buffers s s0 ->
            same_buffers s (final_state (can_send_uuid fuel s0))).
  { intros s0 H0. eapply same_buffers_trans; [exact H0|].
    apply can_send_uuid_frame. }
  unfold can_process, can_process_query_unassigned, can_process_query,
    can_process_set_canid, can_process_reboot, canbus_reboot.
  repeat match goal with
         | |- context [if ?b then _ else _] => destruct b
         end;
    try apply same_buffers_refl;
    try (apply Hsend; repeat split);
    try (cbn [final_state]; repeat split; fail).
  pose proof (Hsend (canbus_set_filter (canbus_assigned_id (set_assigned_id 0 s))
                       (set_assigned_id 0 s)) ltac:(repeat split)) as H.
  destruct (can_send_uuid _ _) as [s1|s1|s1|s1]; exact H.
Qed.

(** ** The receive path *)

Lemma can_process_data_bounded id len data s :
  rx_inv s ->
  Z.of_nat (length (receive_buf s)) = sizeof_receive_buf ->
  0 <= len < 2 ^ 32 ->
  let n := Z.min len (sizeof_receive_buf - receive_pos s) in
  let s' := can_process_data id len data s in
  receive_pos s' = receive_pos s + n /\
  received s' = received s ++ memread data 0 (Z.to_nat n) /\
  length (receive_buf s') = length (receive_buf s) /\
  rx_inv s' /\
  canbus_rx_wake s' = canbus_rx_wake s.
Proof.
  intros Hinv Hbuf Hlen. cbv zeta.
  unfold rx_inv, can_process_data, received, sizeof_receive_buf in *.
  rewrite (u32_small (192 - receive_pos s)) by lia.
  set (n := Z.min len (192 - receive_pos s)).
  assert (E : (if len >? 192 - receive_pos s
               then 192 - receive_pos s else len) = n)
    by (subst n; destruct (Z.gtb_spec len (192 - receive_pos s)); lia).
  rewrite E. assert (Hn : 0 <= n <= 192 - receive_pos s) by lia.
  fields. rewrite u8_small by lia.
  repeat split; try lia.
  - replace (Z.to_nat (receive_pos s + n))
      with (Z.to_nat (receive_pos s) + length (memread data 0 (Z.to_nat n)))%nat
      by (rewrite length_memread; lia).
    pose proof (memread_emit (receive_buf s) 0 (Z.to_nat (receive_pos s))
                  (memread data 0 (Z.to_nat n))) as M.
    cbn [Nat.add] in M. apply M. lia.
  - apply length_memwrite. rewrite length_memread. lia.
Qed.

Lemma final_state_and_then o k :
  (exists s1, o = Returned s1 /\ final_state (o >>= k) = final_state (k s1)) \/
  ((forall s1, o <> Returned s1) /\ o >>= k = o).
Proof.
  destruct o as [s1|s1|s1|s1]; [left; exists s1; now split|..];
    right; split; try reflexivity; discriminate.
Qed.

(** Draining any list of frames keeps the receive cursor within the
    array and the array at its size. *)
Lemma rx_drain_bounded fuel pending : forall s,
  rx_inv s ->
  Z.of_nat (length (receive_buf s)) = sizeof_receive_buf ->
  let s' := final_state (rx_drain fuel pending s) in
  rx_inv s' /\
  Z.of_nat (length (receive_buf s')) = sizeof_receive_buf /\
  canbus_rx_wake s' = canbus_rx_wake s.
Proof.
  induction pending as [|f rest IH]; intros s Hinv Hbuf; cbv zeta;
    cbn [rx_drain].
  - cbn [final_state]. auto.
  - destruct (fr_ret f <? 0); [cbn [final_state]; auto|].
    destruct (negb (fr_id f =? 0) && (fr_id f =? canbus_assigned_id s)).
    + cbn [and_then].
      destruct (can_process_data_bounded (fr_id f) (u32 (fr_ret f))
                  (fr_data f) s Hinv Hbuf (u32_range _))
        as (_ & _ & Hl & Hi & Hw).
      destruct (IH (can_process_data (fr_id f) (u32 (fr_ret f)) (fr_data f) s))
        as (H1 & H2 & H3); [assumption|congruence|].
      repeat split; try apply H1; congruence.
    + destruct (fr_id f =? CANBUS_ID_ADMIN).
      * pose proof (can_process_frame fuel (fr_id f) (u32 (fr_ret f))
                      (fr_data f) s) as (_ & _ & _ & _ & _ & Hw & Hb & Hp).
        assert (Hgood : rx_inv (final_state
                          (can_process fuel (fr_id f) (u32 (fr_ret f))
                             (fr_data f) s)) /\
                        Z.of_nat (length (receive_buf (final_state
                          (can_process fuel (fr_id f) (u32 (fr_ret f))
                             (fr_data f) s)))) = sizeof_receive_buf).
        { unfold rx_inv in *. rewrite Hb, Hp. now split. }
        destruct Hgood as [Hi1 Hb1].
        destruct (final_state_and_then
                    (can_process fuel (fr_id f) (u32 (fr_ret f)) (fr_data f) s)
                    (rx_drain fuel rest)) as [(s1 & E1 & E2)|(_ & E)].
        -- rewrite E2. rewrite E1 in *. cbn [final_state] in *.
           destruct (IH s1 Hi1 Hb1) as (H1 & H2 & H3).
           repeat split; try apply H1; congruence.
        -- rewrite E. repeat split; try apply Hi1; congruence.
      * cbn [and_then]. now apply IH.
Qed.

Lemma set_receive_pos_same s : set_receive_pos (receive_pos s) s = s.
Proof. now destruct s. Qed.

(** The message block check, by cases on what the boundary detector
    reports. *)
Lemma rx_dispatch_cases s :
  0 <= receive_pos s < 2 ^ 8 ->
  let rpos := receive_pos s in
  let ret := fst (command_find_and_dispatch (receive_buf s) rpos) in
  let pop_count := snd (command_find_and_dispatch (receive_buf s) rpos) in
  (ret = 0 -> rx_dispatch s = s) /\
  (ret <> 0 -> pop_count = rpos -> rx_dispatch s = set_receive_pos 0 s) /\
  (ret <> 0 -> 0 <= pop_count < rpos ->
   rx_dispatch s =
   set_receive_pos (rpos - pop_count)
     (set_rx_wake true
        (set_receive_buf
           (memmove_down (receive_buf s) (Z.to_nat pop_count)
                         (Z.to_nat (rpos - pop_count))) s))).
Proof.
  intros Hpos. cbv zeta. unfold rx_dispatch.
  set (r := command_find_and_dispatch (receive_buf s) (receive_pos s)).
  repeat split.
  - intros Hret. rewrite Hret. cbn [Z.eqb negb].
    rewrite u8_small by lia. apply set_receive_pos_same.
  - intros Hret Hpop.
    destruct (Z.eqb_spec (fst r) 0); [contradiction|]. cbn [negb].
    rewrite Hpop, Z.sub_diag. reflexivity.
  - intros Hret Hpop.
    destruct (Z.eqb_spec (fst r) 0); [contradiction|]. cbn [negb].
    rewrite s32_u32_diff by lia.
    destruct (Z.eqb_spec (receive_pos s - snd r) 0); [lia|]. cbn [negb].
    rewrite u32_small, u8_small by lia. reflexivity.
Qed.

(** ** Node-id encoding *)

(** C8 (as amended): for every assigned address a SET_CANID command
    can install (the image [0x100 + 2e] of an encoded byte [e]),
    decoding the encoded address gives the address back, and encoding
    the decoded byte gives the byte back, so these addresses and the
    bytes 0..255 correspond one to one.  The unassigned state (address
    0) is encoded as byte 0 as well, the byte of address [0x100]:
    encoded 0 is not set apart for "no address". *)
Theorem can_id_roundtrip (s : state) (e : Z) :
  (valid_assigned_id (canbus_assigned_id s) ->
   can_decode_id (can_encode_id s) = canbus_assigned_id s /\
   is_byte (can_encode_id s)) /\
  (is_byte e -> canbus_assigned_id s = can_decode_id e ->
   can_encode_id s = e) /\
  (canbus_assigned_id s = 0 -> can_encode_id s = 0) /\
  (canbus_assigned_id s = 0x100 -> can_encode_id s = 0).
Proof.
  repeat split.
  - destruct H as (b & Hb & Hx).
    rewrite (can_encode_decode_byte b s Hb Hx). now symmetry.
  - destruct H as (b & Hb & Hx).
    rewrite (can_encode_decode_byte b s Hb Hx). apply Hb.
  - destruct H as (b & Hb & Hx).
    rewrite (can_encode_decode_byte b s Hb Hx). apply Hb.
  - intros He Hid. now apply can_encode_decode_byte.
  - intros Hid. unfold can_encode_id. now rewrite Hid.
  - intros Hid. unfold can_encode_id. now rewrite Hid.
Qed.

(** ** SET_CANID *)

(** C1: a SET_CANID frame of length >= 8 whose UUID field differs
    from the device's UUID and whose requested address is the
    device's current address makes the device clear its address to 0,
    set the receive filter to 0, send one NEED_CANID response (byte 7
    is 0, the encoding of "unassigned"; earlier attempts the driver
    refused put nothing on the bus) and then call [shutdown] once,
    with the cause "Another CAN node assigned this ID". *)
Theorem set_canid_collision_evicts (fuel k : nat) (id len : Z)
    (data : list Z) (s : state) :
  8 <= len ->
  nth 0 data 0 = CANBUS_CMD_SET_CANID ->
  memcmp_eq (skipn 1 data) (canbus_uuid s) CANBUS_UUID_LEN = false ->
  can_decode_id (nth 7 data 0) = canbus_assigned_id s ->
  accepts_after (send_calls s) k -> (k < fuel)%nat ->
  let frame := response_frame CANBUS_RESP_NEED_CANID (canbus_uuid s) 0 in
  let new :=
    EvSetFilter 0 :: response_sends frame (send_calls s) k
      ++ [EvShutdown "Another CAN node assigned this ID"%string] in
  exists s',
    can_process fuel id len data s = ShutDown s' /\
    can_process_set_canid fuel id len data s = ShutDown s' /\
    canbus_assigned_id s' = 0 /\
    trace s' = trace s ++ new /\
    filter_calls new = [0] /\
    accepted_frames new = [(CANBUS_ID_ADMIN_RESP, frame)] /\
    nth 0 frame 0 = 32 /\ nth 7 frame 0 = 0 /\
    shutdown_calls new = ["Another CAN node assigned this ID"%string] /\
    same_buffers s s'.
Proof.
  intros Hlen Hcmd Huuid Hnew Hacc Hfuel. cbv zeta.
  rewrite can_process_set_canid_dispatch by (assumption || lia).
  unfold can_process_set_canid, can_check_uuid.
  destruct (Z.ltb_spec len 8); [lia|].
  rewrite Huuid, andb_false_r, Hnew, Z.eqb_refl.
  set (s0 := canbus_set_filter _ _).
  rewrite (can_send_uuid_returns fuel k s0) by assumption.
  cbn [and_then]. unfold shutdown.
  eexists. split; [reflexivity|]. split; [reflexivity|].
  subst s0. fields. unfold can_encode_id. fields.
  cbn [Z.eqb]. change (u8 0) with 0.
  destruct (response_sends_one_frame
              (response_frame CANBUS_RESP_NEED_CANID (canbus_uuid s) 0)
              k (send_calls s) Hacc) as (Ha & Hs & Hf).
  repeat split.
  - now rewrite <- !app_assoc.
  - change (EvSetFilter 0 :: ?l) with ([EvSetFilter 0] ++ l).
    rewrite !filter_calls_app, Hf. reflexivity.
  - change (EvSetFilter 0 :: ?l) with ([EvSetFilter 0] ++ l).
    rewrite !accepted_frames_app, Ha. reflexivity.
  - change (EvSetFilter 0 :: ?l) with ([EvSetFilter 0] ++ l).
    rewrite !shutdown_calls_app, Hs. reflexivity.
Qed.

(** C2: a SET_CANID frame of length >= 8 whose UUID field is the
    device's UUID installs the decoded address and sets the receive
    filter to it when it differs from the current address, and in
    every case sends one HAVE_CANID response whose byte 7 is the
    encoding of the now current address, the requested byte. *)
Theorem set_canid_match_assigns (fuel k : nat) (id len : Z)
    (data : list Z) (s : state) :
  8 <= len ->
  nth 0 data 0 = CANBUS_CMD_SET_CANID ->
  memcmp_eq (skipn 1 data) (canbus_uuid s) CANBUS_UUID_LEN = true ->
  is_byte (nth 7 data 0) ->
  accepts_after (send_calls s) k -> (k < fuel)%nat ->
  let e := nth 7 data 0 in
  let newid := can_decode_id e in
  let changed := negb (newid =? canbus_assigned_id s) in
  let frame := response_frame CANBUS_RESP_HAVE_CANID (canbus_uuid s) e in
  let new :=
    (if changed then [EvSetFilter newid] else [])
      ++ response_sends frame (send_calls s) k in
  exists s',
    can_process fuel id len data s = Returned s' /\
    can_process_set_canid fuel id len data s = Returned s' /\
    canbus_assigned_id s' = newid /\
    trace s' = trace s ++ new /\
    filter_calls new = (if changed then [newid] else []) /\
    accepted_frames new = [(CANBUS_ID_ADMIN_RESP, frame)] /\
    nth 0 frame 0 = 33 /\ nth 7 frame 0 = e /\
    u8 (can_encode_id s') = e /\
    shutdown_calls new = [] /\
    same_buffers s s'.
Proof.
  intros Hlen Hcmd Huuid Hbyte Hacc Hfuel. cbv zeta.
  rewrite can_process_set_canid_dispatch by (assumption || lia).
  unfold can_process_set_canid, can_check_uuid.
  destruct (Z.ltb_spec len 8); [lia|].
  destruct (Z.geb_spec len 7); [|lia].
  rewrite Huuid. cbn [andb].
  set (e := nth 7 data 0) in *.
  pose proof (can_decode_id_byte e Hbyte) as Hdec.
  assert (Hnz : can_decode_id e <> 0) by (unfold is_byte in Hbyte; lia).
  set (s1 := if negb (can_decode_id e =? canbus_assigned_id s) then _ else s).
  assert (H1 : canbus_assigned_id s1 = can_decode_id e /\
               canbus_uuid s1 = canbus_uuid s /\
               send_calls s1 = send_calls s /\
               trace s1 = trace s ++
                 (if negb (can_decode_id e =? canbus_assigned_id s)
                  then [EvSetFilter (can_decode_id e)] else []) /\
               same_buffers s s1).
  { subst s1.
    destruct (Z.eqb_spec (can_decode_id e) (canbus_assigned_id s)) as [E|E];
      cbn [negb]; fields.
    - rewrite app_nil_r. repeat split. now symmetry.
    - repeat split. }
  destruct H1 as (Hid1 & Hu1 & Hc1 & Ht1 & Hb1).
  rewrite (can_send_uuid_returns fuel k s1) by (try rewrite Hc1; assumption).
  rewrite Hid1, Hu1, Hc1.
  destruct (Z.eqb_spec (can_decode_id e) 0); [contradiction|].
  rewrite (can_encode_decode_byte e s1 Hbyte Hid1).
  rewrite (u8_small e) by apply Hbyte.
  destruct (response_sends_one_frame
              (response_frame CANBUS_RESP_HAVE_CANID (canbus_uuid s) e)
              k (send_calls s) Hacc) as (Ha & Hs & Hf).
  eexists. split; [reflexivity|]. split; [reflexivity|].
  fields. repeat split; try apply Hb1.
  - assumption.
  - rewrite Ht1. now rewrite <- app_assoc.
  - rewrite filter_calls_app, Hf, app_nil_r. now destruct (negb _).
  - rewrite accepted_frames_app, Ha. now destruct (negb _).
  - unfold can_encode_id. fields. rewrite Hid1.
    destruct (Z.eqb_spec (can_decode_id e) 0); [contradiction|].
    pose proof (can_encode_decode_byte e s1 Hbyte Hid1) as He.
    unfold can_encode_id in He. rewrite Hid1 in He.
    destruct (Z.eqb_spec (can_decode_id e) 0); [contradiction|].
    rewrite He. apply u8_small, Hbyte.
  - rewrite shutdown_calls_app, Hs, app_nil_r. now destruct (negb _).
Qed.

(** C10: a decoded byte is [2 * e + 0x100], never 0; so a SET_CANID
    with the device's UUID leaves the device with a nonzero address
    (whether or not the response has gone out yet), and a device
    without an address never takes the collision branch: whatever the
    frame, no [shutdown] call is made. *)
Theorem unassigned_never_evicts (fuel : nat) (id len : Z)
    (data : list Z) (s : state) :
  is_byte (nth 7 data 0) ->
  let o := can_process_set_canid fuel id len data s in
  (forall e, is_byte e ->
     can_decode_id e = 2 * e + 0x100 /\ can_decode_id e <> 0) /\
  (8 <= len -> can_check_uuid id len data s = true ->
   canbus_assigned_id (final_state o) = can_decode_id (nth 7 data 0) /\
   canbus_assigned_id (final_state o) <> 0) /\
  (canbus_assigned_id s = 0 ->
   (forall s', o <> ShutDown s') /\
   shutdown_calls (trace (final_state o)) = shutdown_calls (trace s) /\
   (can_check_uuid id len data s = false -> o = Returned s)).
Proof.
  intros Hbyte. cbv zeta.
  assert (Hdec : forall e, is_byte e ->
            can_decode_id e = 2 * e + 0x100 /\ can_decode_id e <> 0).
  { intros e He. rewrite can_decode_id_byte by assumption.
    unfold is_byte in He. split; lia. }
  destruct (Hdec _ Hbyte) as [_ Hnz].
  split; [exact Hdec|]. unfold can_process_set_canid. split.
  - intros Hlen Huuid. destruct (Z.ltb_spec len 8); [lia|].
    rewrite Huuid.
    set (s1 := if negb _ then _ else s).
    assert (H1 : canbus_assigned_id s1 = can_decode_id (nth 7 data 0)).
    { subst s1.
      destruct (Z.eqb_spec (can_decode_id (nth 7 data 0))
                           (canbus_assigned_id s)); cbn [negb]; fields;
        congruence. }
    destruct (can_send_uuid_frame fuel s1) as (_ & Hid & _).
    cbv zeta in Hid. rewrite Hid, H1. now split.
  - intros Hzero. destruct (len <? 8).
    { cbn [final_state]. repeat split; discriminate. }
    destruct (can_check_uuid id len data s).
    + set (s1 := if negb _ then _ else s).
      assert (H1 : shutdown_calls (trace s1) = shutdown_calls (trace s)).
      { subst s1. destruct (negb _); [|reflexivity]. fields.
        rewrite shutdown_calls_app. cbn. now rewrite app_nil_r. }
      destruct (can_send_uuid_frame fuel s1) as (_ & _ & Hs & Hn & _).
      cbv zeta in Hs. repeat split; [apply Hn|congruence|discriminate].
    + rewrite Hzero.
      destruct (Z.eqb_spec (can_decode_id (nth 7 data 0)) 0);
        [contradiction|].
      cbn [final_state]. repeat split; discriminate.
Qed.

(** ** Transmit pipeline *)

Lemma run_tx_ops_assigned_id ops : forall s,
  canbus_assigned_id s <> 0 -> Forall op_ok ops -> tx_inv s ->
  canbus_assigned_id (run_tx_ops ops s) = canbus_assigned_id s.
Proof.
  induction ops as [|op ops IH]; intros s Hid Hok Hinv; [reflexivity|].
  inversion Hok as [|? ? Hop Hrest]; subst.
  cbn [run_tx_ops fold_left]. fold (run_tx_ops ops (run_tx_op op s)).
  assert (H1 : canbus_assigned_id (run_tx_op op s) = canbus_assigned_id s
               /\ tx_inv (run_tx_op op s)).
  { destruct op as [ce args|]; cbn [run_tx_op].
    - split; [apply console_sendf_assigned_id|now apply console_sendf_cursors].
    - split; [|now apply canbus_tx_task_cursors].
      destruct Hinv as [? ?]. unfold sizeof_transmit_buf in *.
      apply (canbus_tx_task_wire s Hid); lia. }
  destruct H1 as [H1 H2]. rewrite IH; congruence.
Qed.

(** C3: a woken transmit task of a device with an address offers the
    unsent bytes to the driver in chunks of [min(8, limit - position)]
    bytes, as frames for [AssignedAddress + 1], moves [position] past
    every chunk the driver takes and stops at the first send whose
    result is not positive; hence, for enqueues whose sizes fit the
    buffer, the bytes on the wire followed by the bytes still
    buffered are the enqueued bytes in order, all of them on the wire
    once a task run meets a driver that takes every frame (whatever
    the sizes, they are the bytes of the enqueues that found room).
    Without an address the woken task sets [position = limit = 0] and
    sends nothing. *)
Theorem canbus_tx_task_fifo (s : state) (ops : list tx_op) :
  0 <= transmit_pos s < 2 ^ 8 -> 0 <= transmit_max s < 2 ^ 8 ->
  let dst := u32 (canbus_assigned_id s + 1) in
  (canbus_tx_wake s = true -> canbus_assigned_id s <> 0 ->
   let cs := chunks8 (unsent s) in
   let r := send_chunks dst cs (send_calls s) in
   canbus_tx_task s =
     set_transmit_pos
       (transmit_pos s + Z.of_nat (length (concat (firstn (snd r) cs))))
       (add_sends (fst r) (set_tx_wake false s)) /\
   concat (firstn (snd r) cs) = firstn (8 * snd r) (unsent s) /\
   Forall (data_frame dst) (fst r) /\
   (forall i, (i < snd r)%nat -> canbus_send_result (send_calls s + i) > 0) /\
   ((snd r = length cs /\ length (fst r) = length cs) \/
    ((snd r < length cs)%nat /\ length (fst r) = S (snd r) /\
     canbus_send_result (send_calls s + snd r) <= 0))) /\
  (canbus_assigned_id s <> 0 -> tx_inv s ->
   Z.of_nat (length (transmit_buf s)) = sizeof_transmit_buf ->
   Forall op_ok ops ->
   transmit_max s - transmit_pos s + reserved_size ops
     <= sizeof_transmit_buf ->
   let s' := run_tx_ops ops s in
   wire_bytes dst (trace s') ++ unsent s' =
     wire_bytes dst (trace s) ++ unsent s ++ enqueued_bytes ops /\
   (exists evs, trace s' = trace s ++ evs /\ Forall (data_frame dst) evs) /\
   ((forall n, canbus_send_result n > 0) -> canbus_tx_wake s' = true ->
    unsent (canbus_tx_task s') = [] /\
    wire_bytes dst (trace (canbus_tx_task s')) =
      wire_bytes dst (trace s) ++ unsent s ++ enqueued_bytes ops)) /\
  (canbus_assigned_id s <> 0 -> tx_inv s ->
   Z.of_nat (length (transmit_buf s)) = sizeof_transmit_buf ->
   Forall op_ok ops ->
   let s' := run_tx_ops ops s in
   wire_bytes dst (trace s') ++ unsent s' =
     wire_bytes dst (trace s) ++ unsent s ++ buffered_bytes ops s) /\
  (canbus_tx_wake s = true -> canbus_assigned_id s = 0 ->
   canbus_tx_task s =
     set_transmit_max 0 (set_transmit_pos 0 (set_tx_wake false s)) /\
   transmit_pos (canbus_tx_task s) = 0 /\
   transmit_max (canbus_tx_task s) = 0 /\
   trace (canbus_tx_task s) = trace s).
Proof.
  intros Hpos Hmax. cbv zeta. split; [|split; [|split]].
  - intros Hw Hid. split; [now apply canbus_tx_task_refines|].
    split; [unfold chunks8; now rewrite concat_firstn_chunks by lia|].
    split; [apply send_chunks_frames, chunks_of_sizes|].
    apply send_chunks_stops.
  - intros Hid Hinv Hbuf Hok Hfit.
    destruct (run_tx_ops_fifo ops s Hinv Hbuf Hid Hok Hfit) as [Hw He].
    cbv zeta in *. split; [exact Hw|]. split; [exact He|].
    intros Hacc Hwake.
    pose proof (run_tx_ops_cursors ops s Hok Hinv) as [Hp' Hm'].
    unfold sizeof_transmit_buf in *.
    pose proof (run_tx_ops_assigned_id ops s Hid Hok Hinv) as Hid'.
    assert (Hnz : canbus_assigned_id (run_tx_ops ops s) <> 0) by congruence.
    pose proof (canbus_tx_task_flushes _ Hacc Hwake Hnz
                  ltac:(lia) ltac:(lia)) as Hflush.
    split; [exact Hflush|].
    destruct (canbus_tx_task_wire (run_tx_ops ops s) Hnz
                ltac:(lia) ltac:(lia)) as (Hw2 & _).
    cbv zeta in Hw2. rewrite Hid', Hflush, app_nil_r in Hw2.
    now rewrite Hw2.
  - intros Hid Hinv Hbuf Hok.
    now apply run_tx_ops_fifo_buffered.
  - intros Hw Hid.
    rewrite canbus_tx_task_unassigned by assumption. now repeat split.
Qed.

(** C4: when the unsent bytes plus the declared maximum size exceed
    the 96 bytes of the transmit buffer, [console_sendf] returns
    without encoding: the buffer and its unsent region are as before,
    [limit] has not grown, the task is not signalled and no driver or
    shutdown call is made. *)
Theorem console_sendf_full_drops (ce : command_encoder) (args : va_list)
    (s : state) :
  0 <= transmit_pos s < 2 ^ 8 -> 0 <= transmit_max s < 2 ^ 8 ->
  0 <= max_size ce <= 2 ^ 32 - 2 ^ 8 ->
  transmit_max s - transmit_pos s + max_size ce > sizeof_transmit_buf ->
  let s' := console_sendf ce args s in
  s' = sendf_reset s /\
  transmit_buf s' = transmit_buf s /\
  transmit_max s' <= transmit_max s /\
  unsent s' = unsent s /\
  (transmit_pos s < transmit_max s -> s' = s) /\
  canbus_tx_wake s' = canbus_tx_wake s /\
  trace s' = trace s /\ send_calls s' = send_calls s.
Proof.
  intros Hpos Hmax Hms Hfull. cbv zeta.
  rewrite console_sendf_rejects by assumption.
  unfold sendf_reset, unsent.
  destruct (Z.geb_spec (transmit_pos s) (transmit_max s)); fields;
    repeat split; try lia.
  replace (Z.to_nat (transmit_max s - transmit_pos s)) with 0%nat by lia.
  reflexivity.
Qed.

Lemma set_transmit_buf_same s : set_transmit_buf (transmit_buf s) s = s.
Proof. now destruct s. Qed.

Lemma u32_idem x : u32 (u32 x) = u32 x.
Proof. unfold u32. apply Z.mod_mod. lia. Qed.

(** C5: [console_sendf] called with [position == limit] puts both
    cursors to 0 before the space check and the encoding; and when
    the declared maximum does not fit after [limit] but fits once the
    unsent bytes are moved, the unsent bytes are moved to offset 0,
    [position] becomes 0, [limit] the number of unsent bytes, and
    only then the message is encoded at [limit], which advances by
    the encoded length. *)
Theorem console_sendf_reset_and_compact (ce : command_encoder)
    (args : va_list) (s : state) :
  let drained := set_transmit_max 0 (set_transmit_pos 0 s) in
  (transmit_pos s = transmit_max s ->
   console_sendf ce args s = console_sendf ce args drained /\
   console_sendf ce args s =
     (if u32 (max_size ce) >? sizeof_transmit_buf then drained
      else sendf_emit ce args 0 drained)) /\
  (tx_inv s ->
   Z.of_nat (length (transmit_buf s)) = sizeof_transmit_buf ->
   encoder_ok ce args ->
   transmit_max s + max_size ce > sizeof_transmit_buf ->
   transmit_max s - transmit_pos s + max_size ce <= sizeof_transmit_buf ->
   let k := transmit_max s - transmit_pos s in
   let msg := command_encode_and_frame ce args in
   let moved :=
     set_transmit_max k
       (set_transmit_pos 0
          (set_transmit_buf
             (memmove_down (transmit_buf s) (Z.to_nat (transmit_pos s))
                           (Z.to_nat k)) s)) in
   let s' := console_sendf ce args s in
   s' = sendf_emit ce args k moved /\
   memread (transmit_buf moved) 0 (Z.to_nat k) = unsent s /\
   transmit_pos s' = 0 /\
   transmit_max s' = k + Z.of_nat (length msg) /\
   memread (transmit_buf s') 0 (Z.to_nat k) = unsent s /\
   memread (transmit_buf s') (Z.to_nat k) (length msg) = msg /\
   unsent s' = unsent s ++ msg /\
   length (transmit_buf s') = length (transmit_buf s) /\
   canbus_tx_wake s' = true).
Proof.
  cbv zeta. split.
  - intros Heq.
    assert (E : console_sendf ce args s =
                (if u32 (max_size ce) >? sizeof_transmit_buf
                 then set_transmit_max 0 (set_transmit_pos 0 s)
                 else sendf_emit ce args 0
                        (set_transmit_max 0 (set_transmit_pos 0 s)))).
    { unfold console_sendf. rewrite Heq.
      destruct (Z.geb_spec (transmit_max s) (transmit_max s)); [|lia].
      rewrite Z.add_0_l, Z.sub_0_r, !u32_idem.
      now destruct (u32 (max_size ce) >? sizeof_transmit_buf). }
    split; [|exact E]. rewrite E.
    unfold console_sendf. fields. change (0 >=? 0) with true. cbv iota.
    rewrite Z.add_0_l, Z.sub_0_r, !u32_idem.
    now destruct (u32 (max_size ce) >? sizeof_transmit_buf).
  - intros Hinv Hbuf Hok Hmove Hfit.
    destruct (console_sendf_accepts ce args s Hinv Hbuf Hok Hfit)
      as (Hu & _ & _ & _ & Hlen & Hw & _).
    cbv zeta in *.
    destruct Hinv as [Hpos Hmax]. destruct Hok as [Hms Hmsg].
    unfold sizeof_transmit_buf in *.
    set (msg := command_encode_and_frame ce args) in *.
    set (k := transmit_max s - transmit_pos s) in *.
    assert (E : console_sendf ce args s =
                sendf_emit ce args k
                  (set_transmit_max k
                     (set_transmit_pos 0
                        (set_transmit_buf
                           (memmove_down (transmit_buf s)
                              (Z.to_nat (transmit_pos s)) (Z.to_nat k)) s)))).
    { unfold console_sendf, sizeof_transmit_buf.
      destruct (Z.geb_spec (transmit_pos s) (transmit_max s)) as [Hge|Hlt].
      - assert (Hk : k = 0) by lia. rewrite Hk.
        rewrite Z.add_0_l, Z.sub_0_r, !u32_idem.
        rewrite (u32_small (max_size ce)) by lia.
        destruct (Z.gtb_spec (max_size ce) 96); [lia|].
        cbn [Z.to_nat]. unfold memmove_down, memwrite, memread.
        cbn [seq map length firstn skipn app Nat.add].
        now rewrite set_transmit_buf_same.
      - rewrite (u32_small (max_size ce)) by lia.
        rewrite (u32_small (transmit_max s + max_size ce)) by lia.
        destruct (Z.gtb_spec (transmit_max s + max_size ce) 96); [|lia].
        rewrite (u32_small (transmit_max s + max_size ce - transmit_pos s))
          by lia.
        destruct (Z.gtb_spec (transmit_max s + max_size ce - transmit_pos s)
                             96); [lia|].
        fold k. rewrite (u32_small k), (u8_small k) by lia. reflexivity. }
    assert (Hkn : (Z.to_nat k <= length (transmit_buf s))%nat) by lia.
    rewrite E in *. clear E.
    unfold sendf_emit in *. fold msg in Hu, Hlen, Hw |- *. fields.
    rewrite (u32_small (Z.of_nat (length msg))) in Hu |- * by lia.
    rewrite u8_small in Hu |- * by lia.
    assert (Hmv : memread (memmove_down (transmit_buf s)
                             (Z.to_nat (transmit_pos s)) (Z.to_nat k))
                          0 (Z.to_nat k) = unsent s)
      by (rewrite memread_memmove_down; reflexivity).
    repeat split; try assumption.
    + rewrite memread_memwrite_before; [exact Hmv| |lia].
      rewrite length_memmove_down; lia.
    + apply memread_memwrite_same. rewrite length_memmove_down; lia.
Qed.

(** C9: the transmit task and [console_sendf], and so every sequence
    of them from the initial state on, keep
    [0 <= position <= limit <= 96], provided the encoder writes and
    reports at most the declared [max_size] bytes. *)
Theorem transmit_cursors_invariant (ce : command_encoder) (args : va_list)
    (ops : list tx_op) (s : state) :
  tx_inv s ->
  (encoder_ok ce args -> tx_inv (console_sendf ce args s)) /\
  tx_inv (canbus_tx_task s) /\
  (Forall op_ok ops -> tx_inv (run_tx_ops ops s)) /\
  (Forall op_ok ops -> tx_inv (run_tx_ops ops initial_state)).
Proof.
  intros Hinv. repeat split.
  all: try (intros; apply console_sendf_cursors; assumption).
  all: try (apply canbus_tx_task_cursors; assumption).
  all: try (intros; apply run_tx_ops_cursors; try assumption;
            unfold tx_inv, sizeof_transmit_buf; cbn; lia).
Qed.

(** The message block check keeps the cursor within the array as
    long as the boundary detector consumes no more than it was
    given. *)
Lemma rx_dispatch_bounded s :
  rx_inv s ->
  Z.of_nat (length (receive_buf s)) = sizeof_receive_buf ->
  (fst (command_find_and_dispatch (receive_buf s) (receive_pos s)) <> 0 ->
   0 <= snd (command_find_and_dispatch (receive_buf s) (receive_pos s))
     <= receive_pos s) ->
  rx_inv (rx_dispatch s) /\
  Z.of_nat (length (receive_buf (rx_dispatch s))) = sizeof_receive_buf.
Proof.
  intros Hinv Hbuf Hpop. unfold rx_inv, sizeof_receive_buf in *.
  destruct (rx_dispatch_cases s ltac:(lia)) as (Hnone & Hall & Hsome).
  cbv zeta in *.
  set (r := command_find_and_dispatch (receive_buf s) (receive_pos s)) in *.
  destruct (Z.eq_dec (fst r) 0) as [Hz|Hnz].
  - rewrite Hnone by assumption. now split.
  - specialize (Hpop Hnz).
    destruct (Z.eq_dec (snd r) (receive_pos s)) as [He|Hne].
    + rewrite Hall by assumption. cbn. split; [lia|assumption].
    + rewrite Hsome by (assumption || lia).
      cbn [receive_pos receive_buf set_receive_pos set_rx_wake
           set_receive_buf].
      split; [lia|]. rewrite length_memmove_down; lia.
Qed.

Lemma canbus_rx_task_bounded fuel pending s :
  rx_inv s ->
  Z.of_nat (length (receive_buf s)) = sizeof_receive_buf ->
  (forall s1,
     rx_drain fuel pending (set_rx_wake false s) = Returned s1 ->
     fst (command_find_and_dispatch (receive_buf s1) (receive_pos s1)) <> 0 ->
     0 <= snd (command_find_and_dispatch (receive_buf s1) (receive_pos s1))
       <= receive_pos s1) ->
  rx_inv (final_state (canbus_rx_task fuel pending s)) /\
  Z.of_nat (length (receive_buf (final_state (canbus_rx_task fuel pending s))))
    = sizeof_receive_buf.
Proof.
  intros Hinv Hbuf Hpop. unfold canbus_rx_task.
  destruct (canbus_rx_wake s); cbn [negb]; [|now split].
  destruct (rx_drain_bounded fuel pending (set_rx_wake false s) Hinv Hbuf)
    as (Hi & Hb & _).
  cbv zeta in *.
  destruct (rx_drain fuel pending (set_rx_wake false s)) as [s1|s1|s1|s1];
    cbn [and_then final_state] in *; try now split.
  apply rx_dispatch_bounded; try assumption. now apply Hpop.
Qed.

(** C6: appending a data frame copies at most [192 - position] bytes
    of its payload (the rest is dropped), so however many frames of
    whatever length a wake drains, [receive_pos] stays within 192 and
    nothing is written outside [receive_buf]; this holds at program
    start and after every run of the receive task whose boundary
    detector consumes no more than the bytes it was given. *)
Theorem receive_buffer_never_overflows (fuel : nat) (pending : list frame)
    (id len : Z) (data : list Z) (s : state) :
  rx_inv s ->
  Z.of_nat (length (receive_buf s)) = sizeof_receive_buf ->
  0 <= len < 2 ^ 32 ->
  (let n := Z.min len (sizeof_receive_buf - receive_pos s) in
   let s1 := can_process_data id len data s in
   receive_pos s1 = receive_pos s + n /\
   received s1 = received s ++ memread data 0 (Z.to_nat n) /\
   length (receive_buf s1) = length (receive_buf s) /\
   rx_inv s1) /\
  (let s' := final_state (rx_drain fuel pending s) in
   rx_inv s' /\ Z.of_nat (length (receive_buf s')) = sizeof_receive_buf) /\
  ((forall s1,
      rx_drain fuel pending (set_rx_wake false s) = Returned s1 ->
      fst (command_find_and_dispatch (receive_buf s1) (receive_pos s1)) <> 0 ->
      0 <= snd (command_find_and_dispatch (receive_buf s1) (receive_pos s1))
        <= receive_pos s1) ->
   let s' := final_state (canbus_rx_task fuel pending s) in
   rx_inv s' /\ Z.of_nat (length (receive_buf s')) = sizeof_receive_buf) /\
  rx_inv initial_state /\
  Z.of_nat (length (receive_buf initial_state)) = sizeof_receive_buf.
Proof.
  intros Hinv Hbuf Hlen. split; [|split; [|split; [|split]]].
  - destruct (can_process_data_bounded id len data s Hinv Hbuf Hlen)
      as (H1 & H2 & H3 & H4 & _). cbv zeta in *. auto.
  - destruct (rx_drain_bounded fuel pending s Hinv Hbuf) as (H1 & H2 & _).
    cbv zeta in *. auto.
  - intros Hpop. now apply canbus_rx_task_bounded.
  - unfold rx_inv, sizeof_receive_buf. cbn. lia.
  - reflexivity.
Qed.

(** C7: after the frames of a wake are drained, a complete message
    that leaves [remaining = rpos - pop_count > 0] bytes has them
    moved to the start of [receive_buf], the fill length set to
    [remaining] and the receive task signalled again; a complete
    message that uses all bytes sets the fill length to 0 without a
    signal; without a complete message the fill length stays. *)
Theorem canbus_rx_task_compacts (fuel : nat) (pending : list frame)
    (s s1 : state) :
  canbus_rx_wake s = true ->
  rx_inv s ->
  Z.of_nat (length (receive_buf s)) = sizeof_receive_buf ->
  rx_drain fuel pending (set_rx_wake false s) = Returned s1 ->
  let rpos := receive_pos s1 in
  let ret := fst (command_find_and_dispatch (receive_buf s1) rpos) in
  let pop_count := snd (command_find_and_dispatch (receive_buf s1) rpos) in
  let s' := rx_dispatch s1 in
  canbus_rx_task fuel pending s = Returned s' /\
  (ret <> 0 -> 0 <= pop_count -> rpos - pop_count > 0 ->
   receive_pos s' = rpos - pop_count /\
   received s' =
     memread (receive_buf s1) (Z.to_nat pop_count)
             (Z.to_nat (rpos - pop_count)) /\
   received s' = skipn (Z.to_nat pop_count) (received s1) /\
   canbus_rx_wake s' = true) /\
  (ret <> 0 -> pop_count = rpos ->
   receive_pos s' = 0 /\ canbus_rx_wake s' = false /\
   receive_buf s' = receive_buf s1) /\
  (ret = 0 ->
   receive_pos s' = rpos /\ canbus_rx_wake s' = false /\
   receive_buf s' = receive_buf s1).
Proof.
  intros Hw Hinv Hbuf Hdrain. cbv zeta.
  destruct (rx_drain_bounded fuel pending (set_rx_wake false s) Hinv Hbuf)
    as (Hinv1 & Hbuf1 & Hw1).
  cbv zeta in *. rewrite Hdrain in *. cbn [final_state] in *. fields.
  assert (Hpos : 0 <= receive_pos s1 < 2 ^ 8)
    by (unfold rx_inv, sizeof_receive_buf in Hinv1; lia).
  destruct (rx_dispatch_cases s1 Hpos) as (Hnone & Hall & Hsome).
  cbv zeta in *. split.
  - unfold canbus_rx_task. rewrite Hw. cbn [negb]. now rewrite Hdrain.
  - repeat split.
    + rewrite Hsome by (assumption || lia). reflexivity.
    + rewrite Hsome by (assumption || lia). unfold received. fields.
      apply memread_memmove_down.
    + rewrite Hsome by (assumption || lia). unfold received. fields.
      rewrite memread_memmove_down, skipn_memread. f_equal; lia.
    + rewrite Hsome by (assumption || lia). reflexivity.
    + rewrite Hall by assumption. reflexivity.
    + rewrite Hall by assumption. exact Hw1.
    + rewrite Hall by assumption. reflexivity.
    + rewrite Hnone by assumption. reflexivity.
    + rewrite Hnone by assumption. exact Hw1.
    + rewrite Hnone by assumption. reflexivity.
Qed.

(** ** Further properties of the admin protocol *)

Lemma memcmp_eq_iff a b n :
  memcmp_eq a b n = true <-> memread a 0 n = memread b 0 n.
Proof.
  unfold memcmp_eq. rewrite forallb_forall. split.
  - intros H. apply list_eq_nth; [now rewrite !length_memread|].
    intros i Hi. rewrite length_memread in Hi.
    rewrite !nth_memread by assumption. cbn [Nat.add].
    apply Z.eqb_eq, H, in_seq. lia.
  - intros H i Hi. apply in_seq in Hi. apply Z.eqb_eq.
    assert (E : nth i (memread a 0 n) 0 = nth i (memread b 0 n) 0)
      by now rewrite H.
    rewrite !nth_memread in E by lia. exact E.
Qed.

(** X1: [can_check_uuid] accepts a frame exactly when it has at least
    7 bytes and its bytes 1..6 are the device's UUID; a shorter frame
    never matches, whatever it carries. *)
Theorem can_check_uuid_matches (id len : Z) (data : list Z) (s : state) :
  length (canbus_uuid s) = CANBUS_UUID_LEN ->
  (7 <= length data)%nat ->
  (can_check_uuid id len data s = true <->
   7 <= len /\ firstn 6 (skipn 1 data) = canbus_uuid s) /\
  (len < 7 -> can_check_uuid id len data s = false).
Proof.
  clear command_find_and_dispatch CANBUS_ID_ADMIN.
  intros Hu Hd. unfold can_check_uuid, CANBUS_UUID_LEN in *. split.
  - rewrite andb_true_iff, memcmp_eq_iff.
    rewrite (memread_in_bounds (skipn 1 data)) by (rewrite length_skipn; lia).
    rewrite (memread_in_bounds (canbus_uuid s)) by lia.
    cbn [skipn]. rewrite (firstn_all2 (canbus_uuid s)) by lia.
    destruct (Z.geb_spec len 7); intuition (congruence || lia).
  - intros Hlen. destruct (Z.geb_spec len 7); [lia|reflexivity].
Qed.

(** X2: the admin processor ignores, without any effect, an empty
    frame, a frame whose command byte is none of 0..3, a SET_CANID
    shorter than 8 bytes, any UUID-addressed command shorter than 7
    bytes, and any command for another UUID that does not ask for
    this device's address. *)
Theorem can_process_ignores (fuel : nat) (id len : Z) (data : list Z)
    (s : state) :
  (len = 0 -> can_process fuel id len data s = Returned s) /\
  (~ In (nth 0 data 0) [0; 1; 2; 3] ->
   can_process fuel id len data s = Returned s) /\
  (nth 0 data 0 = CANBUS_CMD_SET_CANID -> len < 8 ->
   can_process fuel id len data s = Returned s) /\
  (nth 0 data 0 <> CANBUS_CMD_QUERY_UNASSIGNED -> len < 7 ->
   can_process fuel id len data s = Returned s) /\
  (nth 0 data 0 <> CANBUS_CMD_QUERY_UNASSIGNED ->
   can_check_uuid id len data s = false ->
   can_decode_id (nth 7 data 0) <> canbus_assigned_id s ->
   can_process fuel id len data s = Returned s).
Proof.
  clear command_find_and_dispatch CANBUS_ID_ADMIN.
  unfold can_process, can_process_query, can_process_set_canid,
    can_process_reboot, can_process_query_unassigned,
    CANBUS_CMD_QUERY_UNASSIGNED, CANBUS_CMD_QUERY, CANBUS_CMD_SET_CANID,
    CANBUS_CMD_REBOOT.
  repeat split.
  - intros ->. reflexivity.
  - intros Hcmd. cbn [In] in Hcmd.
    destruct (len =? 0); [reflexivity|].
    destruct (Z.eqb_spec (nth 0 data 0) 0); [intuition congruence|].
    destruct (Z.eqb_spec (nth 0 data 0) 1); [intuition congruence|].
    destruct (Z.eqb_spec (nth 0 data 0) 2); [intuition congruence|].
    destruct (Z.eqb_spec (nth 0 data 0) 3); [intuition congruence|].
    reflexivity.
  - intros -> Hlen. destruct (len =? 0); [reflexivity|]. cbn.
    destruct (Z.ltb_spec len 8); [reflexivity|lia].
  - intros Hcmd Hlen.
    assert (Hc : can_check_uuid id len data s = false).
    { unfold can_check_uuid. destruct (Z.geb_spec len 7); [lia|reflexivity]. }
    rewrite Hc. destruct (Z.ltb_spec len 8); [|lia].
    destruct (len =? 0); [reflexivity|].
    destruct (Z.eqb_spec (nth 0 data 0) 0); [contradiction|].
    repeat match goal with
           | |- context [if ?b then _ else _] => destruct b
           end; reflexivity.
  - intros Hcmd Hc Hnew. rewrite Hc.
    destruct (Z.eqb_spec (can_decode_id (nth 7 data 0))
                         (canbus_assigned_id s)); [contradiction|].
    destruct (len =? 0); [reflexivity|].
    destruct (Z.eqb_spec (nth 0 data 0) 0); [contradiction|].
    repeat match goal with
           | |- context [if ?b then _ else _] => destruct b
           end; reflexivity.
Qed.

(** X3: QUERY_UNASSIGNED (any frame of at least one byte whose first
    byte is 0, no UUID needed) is answered only by a device without
    an address, with one NEED_CANID frame carrying its UUID and
    encoded address 0; a device with an address ignores it. *)
Theorem query_unassigned_answers (fuel k : nat) (id len : Z)
    (data : list Z) (s : state) :
  len <> 0 -> nth 0 data 0 = CANBUS_CMD_QUERY_UNASSIGNED ->
  (canbus_assigned_id s <> 0 ->
   can_process fuel id len data s = Returned s) /\
  (canbus_assigned_id s = 0 ->
   accepts_after (send_calls s) k -> (k < fuel)%nat ->
   let frame := response_frame CANBUS_RESP_NEED_CANID (canbus_uuid s) 0 in
   can_process fuel id len data s =
     Returned (add_sends (response_sends frame (send_calls s) k) s) /\
   accepted_frames (response_sends frame (send_calls s) k) =
     [(CANBUS_ID_ADMIN_RESP, frame)]).
Proof.
  intros Hlen Hcmd. unfold can_process, can_process_query_unassigned.
  rewrite Hcmd. destruct (Z.eqb_spec len 0); [contradiction|]. cbn [Z.eqb].
  change (CANBUS_CMD_QUERY_UNASSIGNED =? CANBUS_CMD_QUERY_UNASSIGNED) with true.
  cbv iota. split.
  - intros Hid. destruct (Z.eqb_spec (canbus_assigned_id s) 0);
      [contradiction|reflexivity].
  - intros Hid Hacc Hfuel. cbv zeta. rewrite Hid. cbn [Z.eqb].
    rewrite (can_send_uuid_returns fuel k s) by assumption.
    unfold can_encode_id. rewrite Hid. cbn [Z.eqb]. change (u8 0) with 0.
    split; [reflexivity|].
    now apply response_sends_one_frame.
Qed.

(** X4: QUERY for the device's UUID is answered with one response
    frame and changes nothing else: NEED_CANID with encoded address 0
    from a device without an address, HAVE_CANID with the byte of its
    address from a device that was assigned one by SET_CANID. *)
Theorem query_answers (fuel k : nat) (id len : Z) (data : list Z)
    (s : state) (e : Z) :
  nth 0 data 0 = CANBUS_CMD_QUERY ->
  can_check_uuid id len data s = true ->
  accepts_after (send_calls s) k -> (k < fuel)%nat ->
  exists frame,
    can_process fuel id len data s =
      Returned (add_sends (response_sends frame (send_calls s) k) s) /\
    accepted_frames (response_sends frame (send_calls s) k) =
      [(CANBUS_ID_ADMIN_RESP, frame)] /\
    (canbus_assigned_id s = 0 ->
     frame = response_frame CANBUS_RESP_NEED_CANID (canbus_uuid s) 0) /\
    (is_byte e -> canbus_assigned_id s = can_decode_id e ->
     frame = response_frame CANBUS_RESP_HAVE_CANID (canbus_uuid s) e).
Proof.
  intros Hcmd Huuid Hacc Hfuel.
  assert (Hlen : len <> 0).
  { unfold can_check_uuid in Huuid. destruct (Z.geb_spec len 7); [lia|].
    discriminate. }
  eexists. split; [|split; [|split]].
  - unfold can_process, can_process_query. rewrite Hcmd, Huuid.
    destruct (Z.eqb_spec len 0); [contradiction|]. cbn.
    apply can_send_uuid_returns; assumption.
  - now apply response_sends_one_frame.
  - intros Hid. unfold can_encode_id. rewrite Hid. reflexivity.
  - intros He Hid.
    rewrite (can_encode_decode_byte e s He Hid).
    rewrite (u8_small e) by apply He.
    destruct (can_decode_id_byte e He). unfold is_byte in He.
    destruct (Z.eqb_spec (canbus_assigned_id s) 0); [|reflexivity].
    rewrite Hid, can_decode_id_byte in * by assumption. lia.
Qed.

Lemma can_send_uuid_then_shutdown fuel msg s0 :
  let o := can_send_uuid fuel s0 >>= shutdown msg in
  canbus_assigned_id (final_state o) = canbus_assigned_id s0 /\
  (forall s', o <> Rebooted s') /\
  (forall s', o = ShutDown s' ->
     shutdown_calls (trace s') = shutdown_calls (trace s0) ++ [msg]).
Proof.
  cbv zeta.
  destruct (can_send_uuid_frame fuel s0) as (_ & Hid & Hs & Hn1 & Hn2).
  cbv zeta in *.
  destruct (can_send_uuid fuel s0) as [s1|s1|s1|s1] eqn:E;
    cbn [and_then final_state shutdown] in *.
  - fields. repeat split; try assumption; try discriminate.
    intros s' H. injection H as <-. fields.
    rewrite shutdown_calls_app, Hs. reflexivity.
  - exfalso. now apply (Hn1 s1).
  - exfalso. now apply (Hn2 s1).
  - repeat split; try assumption; discriminate.
Qed.

(** X5: the admin processor ends the program only in two ways: it
    reboots only on a REBOOT command carrying the device's UUID, and
    it shuts down only on a SET_CANID of at least 8 bytes for another
    UUID that asks for the device's own address, in which case the
    address has been cleared and one shutdown call made. *)
Theorem can_process_terminal (fuel : nat) (id len : Z) (data : list Z)
    (s s' : state) :
  (can_process fuel id len data s = Rebooted s' ->
   nth 0 data 0 = CANBUS_CMD_REBOOT /\
   can_check_uuid id len data s = true /\
   s' = log EvReboot s) /\
  (can_process fuel id len data s = ShutDown s' ->
   nth 0 data 0 = CANBUS_CMD_SET_CANID /\ 8 <= len /\
   can_check_uuid id len data s = false /\
   can_decode_id (nth 7 data 0) = canbus_assigned_id s /\
   canbus_assigned_id s' = 0 /\
   shutdown_calls (trace s') =
     shutdown_calls (trace s)
       ++ ["Another CAN node assigned this ID"%string]).
Proof.
  assert (Hsend : forall s0 s1,
            can_send_uuid fuel s0 <> Rebooted s1 /\
            can_send_uuid fuel s0 <> ShutDown s1).
  { intros s0 s1. destruct (can_send_uuid_frame fuel s0) as (_ & _ & _ & H1 & H2).
    split; [apply H2|apply H1]. }
  unfold can_process, can_process_query_unassigned, can_process_query,
    can_process_set_canid, can_process_reboot, canbus_reboot.
  destruct (len =? 0); [split; discriminate|].
  destruct (Z.eqb_spec (nth 0 data 0) CANBUS_CMD_QUERY_UNASSIGNED).
  { destruct (canbus_assigned_id s =? 0); split; try discriminate;
      intros H; now apply Hsend in H. }
  destruct (Z.eqb_spec (nth 0 data 0) CANBUS_CMD_QUERY).
  { destruct (can_check_uuid id len data s); split; try discriminate;
      intros H; now apply Hsend in H. }
  destruct (Z.eqb_spec (nth 0 data 0) CANBUS_CMD_SET_CANID) as [Hset|].
  { destruct (Z.ltb_spec len 8) as [Hl8|Hl8]; [split; discriminate|].
    destruct (can_check_uuid id len data s).
    { split; intros H; now apply Hsend in H. }
    destruct (Z.eqb_spec (can_decode_id (nth 7 data 0))
                         (canbus_assigned_id s)) as [Hnew|];
      [|split; discriminate].
    set (s0 := canbus_set_filter _ _).
    destruct (can_send_uuid_then_shutdown fuel
                "Another CAN node assigned this ID"%string s0)
      as (Hid & Hnr & Hsd).
    cbv zeta in *. split.
    - intros H. now apply Hnr in H.
    - intros H. rewrite H in Hid. cbn [final_state] in Hid.
      split; [assumption|]. split; [lia|]. split; [reflexivity|].
      split; [assumption|]. split.
      + rewrite Hid. subst s0. reflexivity.
      + rewrite (Hsd s' H). subst s0. fields.
        rewrite shutdown_calls_app. cbn. now rewrite app_nil_r. }
  destruct (Z.eqb_spec (nth 0 data 0) CANBUS_CMD_REBOOT) as [Hrb|];
    [|split; discriminate].
  destruct (can_check_uuid id len data s); [|split; discriminate].
  split; [|discriminate].
  intros H. injection H as <-. now repeat split.
Qed.

Lemma send_retry_refused data fuel : forall s,
  (forall n, canbus_send_result n < 0) ->
  send_retry fuel data s =
  Retrying (add_sends (refused_sends data (send_calls s) fuel) s).
Proof.
  induction fuel as [|fuel IH]; intros s Hdead; cbn [send_retry refused_sends].
  - now rewrite add_sends_nil.
  - rewrite canbus_send_eq. cbn [fst snd].
    pose proof (Hdead (send_calls s)).
    destruct (Z.geb_spec (canbus_send_result (send_calls s)) 0); [lia|].
    rewrite IH by assumption. now rewrite add_sends_cons.
Qed.

Lemma refused_sends_nothing data k : forall n,
  (forall i, canbus_send_result i < 0) ->
  accepted_frames (refused_sends data n k) = [] /\
  shutdown_calls (refused_sends data n k) = [] /\
  length (refused_sends data n k) = k.
Proof.
  induction k as [|k IH]; intros n Hdead; cbn [refused_sends].
  - now repeat split.
  - destruct (IH (S n) Hdead) as (Ha & Hs & Hl).
    cbn [accepted_frames shutdown_calls flat_map length].
    pose proof (Hdead n).
    destruct (Z.geb_spec (canbus_send_result n) 0); [lia|].
    cbn [app]. repeat split; try assumption. now rewrite Hl.
Qed.

(** X6: the retry loop of [can_send_uuid] has no bound: against a
    driver that refuses every send it is still retrying after any
    number of attempts, with no frame on the bus.  A colliding
    SET_CANID then leaves the device with its address cleared and the
    filter set to 0, but [shutdown] is never reached. *)
Theorem can_send_uuid_unbounded_retry (fuel : nat) (id len : Z)
    (data : list Z) (s : state) :
  (forall n, canbus_send_result n < 0) ->
  (exists frame,
     can_send_uuid fuel s =
       Retrying (add_sends (refused_sends frame (send_calls s) fuel) s) /\
     accepted_frames (refused_sends frame (send_calls s) fuel) = [] /\
     length (refused_sends frame (send_calls s) fuel) = fuel) /\
  (8 <= len -> nth 0 data 0 = CANBUS_CMD_SET_CANID ->
   can_check_uuid id len data s = false ->
   can_decode_id (nth 7 data 0) = canbus_assigned_id s ->
   exists s',
     can_process fuel id len data s = Retrying s' /\
     canbus_assigned_id s' = 0 /\
     filter_calls (trace s') = filter_calls (trace s) ++ [0] /\
     accepted_frames (trace s') = accepted_frames (trace s) /\
     shutdown_calls (trace s') = shutdown_calls (trace s)).
Proof.
  intros Hdead. split.
  - eexists. rewrite can_send_uuid_eq.
    split; [now apply send_retry_refused|].
    destruct (refused_sends_nothing
                (response_frame
                   (if canbus_assigned_id s =? 0
                    then CANBUS_RESP_NEED_CANID else CANBUS_RESP_HAVE_CANID)
                   (canbus_uuid s) (u8 (can_encode_id s)))
                fuel (send_calls s) Hdead) as (Ha & _ & Hl).
    now split.
  - intros Hlen Hcmd Huuid Hnew.
    rewrite can_process_set_canid_dispatch by (assumption || lia).
    unfold can_process_set_canid.
    destruct (Z.ltb_spec len 8); [lia|].
    rewrite Huuid, Hnew, Z.eqb_refl.
    set (s0 := canbus_set_filter _ _).
    rewrite can_send_uuid_eq, send_retry_refused by assumption.
    cbn [and_then]. eexists. split; [reflexivity|].
    set (frame := response_frame _ _ _).
    destruct (refused_sends_nothing frame fuel (send_calls s0) Hdead)
      as (Ha & Hs & _).
    assert (Hf : filter_calls (refused_sends frame (send_calls s0) fuel) = []).
    { clear. generalize (send_calls s0).
      induction fuel as [|fuel IH]; intros n; cbn; [reflexivity|apply IH]. }
    subst s0. fields.
    rewrite !filter_calls_app, !accepted_frames_app, !shutdown_calls_app.
    rewrite Ha, Hs, Hf. cbn. rewrite !app_nil_r. now repeat split.
Qed.

(** X7: whatever the admin frame and however the call ends, the admin
    processor touches neither buffer, cursor, wake flag nor UUID, and
    the address changes only through a SET_CANID of at least 8 bytes:
    to the decoded byte 7 when the UUID is the device's, to 0 when
    another device is given this device's address. *)
Theorem can_process_effects (fuel : nat) (id len : Z) (data : list Z)
    (s : state) :
  let s' := final_state (can_process fuel id len data s) in
  same_buffers s s' /\
  (canbus_assigned_id s' = canbus_assigned_id s \/
   (nth 0 data 0 = CANBUS_CMD_SET_CANID /\ 8 <= len /\
    ((can_check_uuid id len data s = true /\
      canbus_assigned_id s' = can_decode_id (nth 7 data 0)) \/
     (can_check_uuid id len data s = false /\
      can_decode_id (nth 7 data 0) = canbus_assigned_id s /\
      canbus_assigned_id s' = 0)))).
Proof.
  cbv zeta. split; [apply can_process_frame|].
  assert (Hsend : forall s0,
            canbus_assigned_id (final_state (can_send_uuid fuel s0))
            = canbus_assigned_id s0)
    by (intros s0; apply can_send_uuid_frame).
  unfold can_process, can_process_query_unassigned, can_process_query,
    can_process_set_canid, can_process_reboot, canbus_reboot.
  destruct (len =? 0); [now left|].
  destruct (Z.eqb_spec (nth 0 data 0) CANBUS_CMD_QUERY_UNASSIGNED).
  { destruct (canbus_assigned_id s =? 0); left; [apply Hsend|reflexivity]. }
  destruct (Z.eqb_spec (nth 0 data 0) CANBUS_CMD_QUERY).
  { destruct (can_check_uuid id len data s); left;
      [apply Hsend|reflexivity]. }
  destruct (Z.eqb_spec (nth 0 data 0) CANBUS_CMD_SET_CANID) as [Hset|].
  { destruct (Z.ltb_spec len 8); [now left|].
    destruct (can_check_uuid id len data s).
    - rewrite Hsend.
      destruct (Z.eqb_spec (can_decode_id (nth 7 data 0))
                           (canbus_assigned_id s)) as [E|E]; cbn [negb].
      + now left.
      + right. fields. repeat split; try assumption. left. now split.
    - destruct (Z.eqb_spec (can_decode_id (nth 7 data 0))
                           (canbus_assigned_id s)) as [E|E]; [|now left].
      right. repeat split; try assumption. right.
      destruct (can_send_uuid_then_shutdown fuel
                  "Another CAN node assigned this ID"%string
                  (canbus_set_filter (canbus_assigned_id (set_assigned_id 0 s))
                     (set_assigned_id 0 s))) as (Hid & _).
      cbv zeta in Hid. rewrite Hid. now repeat split. }
  destruct (nth 0 data 0 =? CANBUS_CMD_REBOOT); [|now left].
  destruct (can_check_uuid id len data s); now left.
Qed.

(** ** Further properties of the receive path *)

(** X8: frames that are neither for the device's own address nor for
    the admin channel are dropped without any effect; in particular a
    device without an address stores no data frame, whatever its
    identifier. *)
Theorem rx_drain_ignores_foreign (fuel : nat) (pending : list frame)
    (s : state) :
  Forall (foreign_frame s) pending ->
  rx_drain fuel pending s = Returned s /\
  (canbus_assigned_id s = 0 ->
   forall others,
     Forall (fun f => fr_id f <> CANBUS_ID_ADMIN) others ->
     rx_drain fuel others s = Returned s).
Proof.
  assert (Hdrop : forall l, Forall (foreign_frame s) l ->
                            rx_drain fuel l s = Returned s).
  { induction 1 as [|f rest [Hadm Hid] _ IH]; cbn [rx_drain];
      [reflexivity|].
    destruct (fr_ret f <? 0); [reflexivity|].
    assert (E : negb (fr_id f =? 0) && (fr_id f =? canbus_assigned_id s)
                = false).
    { destruct (Z.eqb_spec (fr_id f) 0); [reflexivity|].
      destruct (Z.eqb_spec (fr_id f) (canbus_assigned_id s));
        [|reflexivity].
      destruct Hid; contradiction. }
    rewrite E.
    destruct (Z.eqb_spec (fr_id f) CANBUS_ID_ADMIN); [contradiction|].
    cbn [and_then]. exact IH. }
  intros Hall. split; [now apply Hdrop|].
  intros Hzero others Hothers. apply Hdrop.
  eapply Forall_impl; [|exact Hothers].
  intros f Hf. split; [assumption|].
  destruct (Z.eq_dec (fr_id f) 0); [now left|right; congruence].
Qed.

(** X9: appending a data frame is appending its bytes and cutting the
    result at 192: what does not fit is lost, and a frame that meets a
    full buffer changes nothing at all. *)
Theorem can_process_data_truncates (id len : Z) (data : list Z)
    (s : state) :
  rx_inv s ->
  Z.of_nat (length (receive_buf s)) = sizeof_receive_buf ->
  0 <= len < 2 ^ 32 ->
  received (can_process_data id len data s) =
    firstn 192 (received s ++ memread data 0 (Z.to_nat len)) /\
  (receive_pos s = sizeof_receive_buf ->
   can_process_data id len data s = s).
Proof.
  intros Hinv Hbuf Hlen.
  destruct (can_process_data_bounded id len data s Hinv Hbuf Hlen)
    as (_ & Hr & _).
  cbv zeta in Hr. unfold rx_inv, sizeof_receive_buf in *. split.
  - rewrite Hr. unfold received.
    rewrite firstn_app, length_memread.
    rewrite firstn_all2 by (rewrite length_memread; lia).
    f_equal. rewrite firstn_memread. f_equal. lia.
  - intros Hfull. unfold can_process_data, sizeof_receive_buf.
    rewrite Hfull. change (u32 (192 - 192)) with 0.
    destruct (Z.gtb_spec len 0);
      [|replace len with 0 by lia];
      cbn [Z.to_nat]; unfold memwrite; rewrite memread_nil;
      cbn [length app]; rewrite Nat.add_0_r, firstn_skipn;
      change (u8 (192 + 0)) with 192; rewrite <- Hfull;
      now destruct s.
Qed.

Lemma payload_size_nonneg s fs :
  Forall (own_data_frame s) fs -> 0 <= payload_size fs.
Proof.
  induction 1 as [|f fs [_ Hf] _ IH]; cbn [payload_size fold_right].
  - lia.
  - fold (payload_size fs). lia.
Qed.

Lemma rx_drain_appends fuel pending : forall s,
  canbus_assigned_id s <> 0 ->
  rx_inv s ->
  Z.of_nat (length (receive_buf s)) = sizeof_receive_buf ->
  Forall (own_data_frame s) pending ->
  receive_pos s + payload_size pending <= sizeof_receive_buf ->
  exists s1,
    rx_drain fuel pending s = Returned s1 /\
    received s1 = received s ++ payloads pending /\
    receive_pos s1 = receive_pos s + payload_size pending /\
    canbus_assigned_id s1 = canbus_assigned_id s /\
    trace s1 = trace s /\
    canbus_rx_wake s1 = canbus_rx_wake s.
Proof.
  induction pending as [|f rest IH]; intros s Hid Hinv Hbuf Hall Hfit.
  - exists s. cbn [rx_drain payloads flat_map payload_size fold_right].
    rewrite app_nil_r, Z.add_0_r. now repeat split.
  - inversion Hall as [|? ? [Hf Hret] Hrest]; subst.
    pose proof (payload_size_nonneg s rest Hrest) as Hnn.
    cbn [payload_size fold_right] in Hfit. fold (payload_size rest) in Hfit.
    cbn [rx_drain].
    destruct (Z.ltb_spec (fr_ret f) 0); [lia|].
    rewrite Hf, Z.eqb_refl.
    destruct (Z.eqb_spec (canbus_assigned_id s) 0); [contradiction|].
    cbn [negb andb and_then].
    unfold rx_inv, sizeof_receive_buf in *.
    assert (Hu : u32 (fr_ret f) = fr_ret f) by (apply u32_small; lia).
    rewrite Hu.
    destruct (can_process_data_bounded (canbus_assigned_id s) (fr_ret f)
                (fr_data f) s) as (Hp & Hr & Hl & Hi & Hw);
      try (unfold rx_inv, sizeof_receive_buf; lia).
    cbv zeta in *. unfold sizeof_receive_buf in *.
    rewrite Z.min_l in Hp, Hr by lia.
    set (s1 := can_process_data _ _ _ s) in *.
    assert (Hid1 : canbus_assigned_id s1 = canbus_assigned_id s)
      by reflexivity.
    assert (Htr1 : trace s1 = trace s) by reflexivity.
    destruct (IH s1) as (s2 & E & Hr2 & Hp2 & Hid2 & Htr2 & Hw2);
      try (unfold rx_inv, sizeof_receive_buf; lia); try congruence.
    { eapply Forall_impl; [|exact Hrest].
      intros g [Hg1 Hg2]. split; congruence. }
    exists s2. split; [exact E|].
    cbn [payloads flat_map payload_size fold_right].
    fold (payloads rest). fold (payload_size rest).
    repeat split; try congruence.
    + rewrite Hr2, Hr, <- app_assoc. reflexivity.
    + lia.
Qed.

(** X10: a message that arrives split over several data frames in one
    wake is put together before the boundary detector runs: as long
    as the bytes fit, the receive task appends the payloads in
    arrival order and then hands the whole buffer to
    [command_find_and_dispatch], once. *)
Theorem canbus_rx_task_reassembles (fuel : nat) (pending : list frame)
    (s : state) :
  canbus_rx_wake s = true ->
  canbus_assigned_id s <> 0 ->
  rx_inv s ->
  Z.of_nat (length (receive_buf s)) = sizeof_receive_buf ->
  Forall (own_data_frame s) pending ->
  receive_pos s + payload_size pending <= sizeof_receive_buf ->
  exists s1,
    rx_drain fuel pending (set_rx_wake false s) = Returned s1 /\
    canbus_rx_task fuel pending s = Returned (rx_dispatch s1) /\
    received s1 = received s ++ payloads pending /\
    receive_pos s1 = receive_pos s + payload_size pending /\
    trace s1 = trace s.
Proof.
  intros Hw Hid Hinv Hbuf Hall Hfit.
  destruct (rx_drain_appends fuel pending (set_rx_wake false s))
    as (s1 & E & Hr & Hp & _ & Htr & _); try assumption.
  exists s1. split; [exact E|]. split.
  - unfold canbus_rx_task. rewrite Hw. cbn [negb]. now rewrite E.
  - now repeat split.
Qed.

Lemma and_then_assoc o k1 k2 :
  (o >>= k1) >>= k2 = o >>= (fun s => k1 s >>= k2).
Proof. now destruct o. Qed.

Lemma rx_drain_app fuel l1 l2 : forall s,
  Forall (fun f => 0 <= fr_ret f) l1 ->
  rx_drain fuel (l1 ++ l2) s = rx_drain fuel l1 s >>= rx_drain fuel l2.
Proof.
  induction l1 as [|f l1 IH]; intros s Hall; [reflexivity|].
  inversion Hall as [|? ? Hf Hrest]; subst.
  cbn [app rx_drain].
  destruct (Z.ltb_spec (fr_ret f) 0); [lia|].
  rewrite and_then_assoc.
  set (o := if negb (fr_id f =? 0) && (fr_id f =? canbus_assigned_id s)
            then _ else _).
  destruct o; cbn [and_then]; [now apply IH|reflexivity..].
Qed.

(** X11: draining is sequential, and a frame whose admin processing
    does not return (shutdown after a collision, reboot, or a response
    the driver keeps refusing) ends the wake there: the frames behind
    it are not read and the boundary detector is not run. *)
Theorem rx_drain_stops (fuel : nat) (before after : list frame)
    (f : frame) (s s1 : state) :
  canbus_rx_wake s = true ->
  Forall (fun g => 0 <= fr_ret g) before ->
  rx_drain fuel before (set_rx_wake false s) = Returned s1 ->
  0 <= fr_ret f ->
  fr_id f = CANBUS_ID_ADMIN ->
  fr_id f = 0 \/ fr_id f <> canbus_assigned_id s1 ->
  (forall s2, can_process fuel (fr_id f) (u32 (fr_ret f)) (fr_data f) s1
              <> Returned s2) ->
  let o := can_process fuel (fr_id f) (u32 (fr_ret f)) (fr_data f) s1 in
  canbus_rx_task fuel (before ++ f :: after) s = o /\
  receive_pos (final_state o) = receive_pos s1 /\
  receive_buf (final_state o) = receive_buf s1.
Proof.
  intros Hw Hbefore Hdrain Hret Hadm Hid Hstop. cbv zeta.
  pose proof (can_process_frame fuel (fr_id f) (u32 (fr_ret f)) (fr_data f) s1)
    as (_ & _ & _ & _ & _ & _ & Hb & Hp).
  split; [|now split].
  unfold canbus_rx_task. rewrite Hw. cbn [negb].
  rewrite rx_drain_app, Hdrain by assumption. cbn [and_then rx_drain].
  destruct (Z.ltb_spec (fr_ret f) 0); [lia|].
  assert (E : negb (fr_id f =? 0) && (fr_id f =? canbus_assigned_id s1)
              = false).
  { destruct (Z.eqb_spec (fr_id f) 0); [reflexivity|].
    destruct (Z.eqb_spec (fr_id f) (canbus_assigned_id s1)); [|reflexivity].
    destruct Hid; contradiction. }
  rewrite E, Hadm, Z.eqb_refl. rewrite Hadm in Hstop.
  destruct (can_process fuel CANBUS_ID_ADMIN (u32 (fr_ret f)) (fr_data f) s1)
    as [s2|s2|s2|s2]; [now destruct (Hstop s2)|reflexivity..].
Qed.

(** ** Further properties of the transmit path *)

Lemma tx_avail_decreases tmax tpos :
  let avail := s32 (u32 (tmax - tpos)) in
  let now := if avail >? 8 then 8 else avail in
  0 < avail ->
  (Z.to_nat (s32 (u32 (tmax - u32 (tpos + now)))) < Z.to_nat avail)%nat.
Proof.
  clear canbus_send_result command_encode_and_frame command_find_and_dispatch
        CANBUS_ID_ADMIN CANBUS_ID_ADMIN_RESP.
  cbv zeta. intros H.
  destruct (Z.gtb_spec (s32 (u32 (tmax - tpos))) 8) as [E|E];
    unfold s32, u32 in *; Z.to_euclidean_division_equations; lia.
Qed.

(** The loop only adds driver calls to the state, for every value of
    its cursors. *)
Lemma tx_loop_frame n : forall id tmax tpos s,
  (Z.to_nat (s32 (u32 (tmax - tpos))) <= n)%nat ->
  exists evs, snd (tx_loop id tmax tpos s) = add_sends evs s.
Proof.
  induction n as [|n IH]; intros id tmax tpos s Hn;
    rewrite tx_loop_eq; cbv zeta.
  - destruct (Z.leb_spec (s32 (u32 (tmax - tpos))) 0); [|lia].
    exists []. cbn [snd]. now rewrite add_sends_nil.
  - destruct (Z.leb_spec (s32 (u32 (tmax - tpos))) 0) as [|Hpos].
    + exists []. cbn [snd]. now rewrite add_sends_nil.
    + rewrite canbus_send_eq. cbn [fst snd].
      set (ev := EvSend _ _ _ _).
      destruct (canbus_send_result (send_calls s) <=? 0).
      * exists [ev]. reflexivity.
      * pose proof (tx_avail_decreases tmax tpos Hpos) as Hdec.
        cbv zeta in Hdec.
        destruct (IH id tmax
                    (u32 (tpos + (if s32 (u32 (tmax - tpos)) >? 8 then 8
                                  else s32 (u32 (tmax - tpos)))))
                    (add_sends [ev] s)) as [evs E]; [lia|].
        exists (ev :: evs). rewrite E. apply add_sends_cons.
Qed.

Lemma canbus_tx_task_receive_side s :
  same_receive_side s (canbus_tx_task s).
Proof.
  unfold canbus_tx_task.
  destruct (canbus_tx_wake s); cbn [negb]; [|now repeat split].
  fields.
  destruct (canbus_assigned_id s =? 0); [now repeat split|].
  destruct (tx_loop_frame _ (canbus_assigned_id s) (transmit_max s)
              (transmit_pos s) (set_tx_wake false s) (Nat.le_refl _))
    as [evs E].
  rewrite E. now repeat split.
Qed.

Lemma console_sendf_quiet ce args s :
  same_receive_side s (console_sendf ce args s) /\
  trace (console_sendf ce args s) = trace s /\
  send_calls (console_sendf ce args s) = send_calls s.
Proof.
  unfold console_sendf, sendf_emit.
  repeat match goal with
         | |- context [if ?b then _ else _] => destruct b
         end; now repeat split.
Qed.

Lemma same_receive_side_trans s1 s2 s3 :
  same_receive_side s1 s2 -> same_receive_side s2 s3 ->
  same_receive_side s1 s3.
Proof. unfold same_receive_side. intuition congruence. Qed.

Lemma run_tx_ops_receive_side ops : forall s,
  same_receive_side s (run_tx_ops ops s).
Proof.
  induction ops as [|op ops IH]; intros s; [now repeat split|].
  cbn [run_tx_ops fold_left]. fold (run_tx_ops ops (run_tx_op op s)).
  eapply same_receive_side_trans; [|apply IH].
  destruct op as [ce args|]; cbn [run_tx_op].
  - apply console_sendf_quiet.
  - apply canbus_tx_task_receive_side.
Qed.

Lemma same_transmit_side_trans s1 s2 s3 :
  same_transmit_side s1 s2 -> same_transmit_side s2 s3 ->
  same_transmit_side s1 s3.
Proof. unfold same_transmit_side. intuition congruence. Qed.

Lemma rx_drain_transmit_side fuel pending : forall s,
  same_transmit_side s (final_state (rx_drain fuel pending s)).
Proof.
  induction pending as [|f rest IH]; intros s; cbn [rx_drain];
    [now repeat split|].
  destruct (fr_ret f <? 0); [now repeat split|].
  destruct (negb (fr_id f =? 0) && (fr_id f =? canbus_assigned_id s)).
  - cbn [and_then]. eapply same_transmit_side_trans; [|apply IH].
    now repeat split.
  - destruct (fr_id f =? CANBUS_ID_ADMIN); [|apply IH].
    pose proof (can_process_frame fuel (fr_id f) (u32 (fr_ret f))
                  (fr_data f) s) as (H1 & H2 & H3 & H4 & H5 & _).
    destruct (can_process fuel (fr_id f) (u32 (fr_ret f)) (fr_data f) s)
      as [s1|s1|s1|s1]; cbn [and_then final_state] in *;
      try now repeat split.
    eapply same_transmit_side_trans; [|apply IH]. now repeat split.
Qed.

(** X12: the two pipelines keep to their own state: no sequence of
    enqueues and transmit task runs touches the receive buffer, its
    cursor, the receive wake flag, the UUID or the address, and
    reading frames (data or admin, however it ends) touches neither
    the transmit buffer, its cursors nor the transmit wake flag. *)
Theorem pipelines_independent (fuel : nat) (pending : list frame)
    (ops : list tx_op) (s : state) :
  same_receive_side s (run_tx_ops ops s) /\
  same_transmit_side s (final_state (rx_drain fuel pending s)).
Proof.
  split; [apply run_tx_ops_receive_side|apply rx_drain_transmit_side].
Qed.

Lemma run_tx_ops_unassigned ops : forall s,
  canbus_assigned_id s = 0 ->
  trace (run_tx_ops ops s) = trace s /\
  send_calls (run_tx_ops ops s) = send_calls s.
Proof.
  induction ops as [|op ops IH]; intros s Hid; [now split|].
  cbn [run_tx_ops fold_left]. fold (run_tx_ops ops (run_tx_op op s)).
  assert (H1 : canbus_assigned_id (run_tx_op op s) = 0 /\
               trace (run_tx_op op s) = trace s /\
               send_calls (run_tx_op op s) = send_calls s).
  { destruct op as [ce args|]; cbn [run_tx_op].
    - destruct (console_sendf_quiet ce args s)
        as ((_ & Hi & _) & Ht & Hc). repeat split; congruence.
    - destruct (canbus_tx_wake s) eqn:Hw.
      + rewrite canbus_tx_task_unassigned by assumption.
        now repeat split.
      + rewrite canbus_tx_task_idle by assumption. now repeat split. }
  destruct H1 as (Hid1 & Ht1 & Hc1).
  destruct (IH _ Hid1) as [Ht Hc]. split; congruence.
Qed.

(** X13: a device without an address never calls the driver from the
    transmit pipeline, whatever is enqueued and however often the
    task runs; a message accepted by [console_sendf] is thrown away
    by the task run it wakes, and so is everything still buffered
    when [canbus_shutdown] wakes the task. *)
Theorem unassigned_never_transmits (ops : list tx_op)
    (ce : command_encoder) (args : va_list) (s : state) :
  canbus_assigned_id s = 0 ->
  let s' := run_tx_ops ops s in
  trace s' = trace s /\ send_calls s' = send_calls s /\
  (tx_inv s' ->
   Z.of_nat (length (transmit_buf s')) = sizeof_transmit_buf ->
   encoder_ok ce args ->
   transmit_max s' - transmit_pos s' + max_size ce <= sizeof_transmit_buf ->
   let s2 := canbus_tx_task (console_sendf ce args s') in
   unsent s2 = [] /\ transmit_max s2 = 0 /\ trace s2 = trace s) /\
  (let s3 := canbus_tx_task (canbus_shutdown s') in
   unsent s3 = [] /\ transmit_max s3 = 0 /\ trace s3 = trace s /\
   canbus_rx_wake s3 = true).
Proof.
  intros Hid. cbv zeta.
  destruct (run_tx_ops_unassigned ops s Hid) as [Ht Hc].
  pose proof (run_tx_ops_receive_side ops s) as (_ & Hid' & _).
  rewrite Hid in Hid'.
  split; [exact Ht|]. split; [exact Hc|]. split.
  - intros Hinv Hbuf Hok Hfit.
    destruct (console_sendf_accepts ce args _ Hinv Hbuf Hok Hfit)
      as (_ & _ & _ & _ & _ & Hw & Htr & Hi).
    cbv zeta in *.
    rewrite canbus_tx_task_unassigned by congruence.
    unfold unsent. fields. repeat split. congruence.
  - rewrite canbus_tx_task_unassigned by (assumption || reflexivity).
    unfold unsent, canbus_shutdown. fields. now repeat split.
Qed.

(** X14: the addresses SET_CANID can install are the even numbers
    from [0x100] to [0x2FE], one per encoded byte; the identifier the
    transmit task sends to, the address plus one, is odd and is
    therefore no device's receive address. *)
Theorem data_identifiers_disjoint (x y : Z) :
  valid_assigned_id x -> valid_assigned_id y ->
  0x100 <= x <= 0x2FE /\ Z.even x = true /\
  u32 (x + 1) = x + 1 /\ u32 (x + 1) <> y /\ x <> 0 /\
  (forall e1 e2, is_byte e1 -> is_byte e2 ->
     can_decode_id e1 = can_decode_id e2 -> e1 = e2).
Proof.
  intros (e & He & ->) (e' & He' & ->).
  rewrite !can_decode_id_byte by assumption.
  unfold is_byte in *.
  rewrite u32_small by lia.
  repeat split; try lia.
  - rewrite Z.add_comm, Z.even_add_mul_2. reflexivity.
  - intros e1 e2 H1 H2. rewrite !can_decode_id_byte by assumption. lia.
Qed.

Lemma length_chunks_of fuel : forall l,
  (length l <= fuel)%nat ->
  (8 * length (chunks_of fuel l) <= length l + 7)%nat.
Proof.
  induction fuel as [|fuel IH]; intros l Hl.
  - cbn. lia.
  - destruct l as [|b l]; [cbn; lia|].
    cbn [chunks_of length].
    assert (Hs : (length (skipn 8 (b :: l)) <= fuel)%nat)
      by (rewrite length_skipn; cbn [length] in *; lia).
    specialize (IH _ Hs). rewrite length_skipn in IH.
    cbn [length] in *. lia.
Qed.

Lemma length_send_chunks dst cs : forall n,
  (length (fst (send_chunks dst cs n)) <= length cs)%nat.
Proof.
  intros n. destruct (send_chunks_stops dst cs n) as [_ H]. cbv zeta in H.
  destruct H as [[_ H]|(H1 & H2 & _)]; lia.
Qed.

(** X15: one run of the transmit task makes at most one driver call
    per 8 unsent bytes (rounded up), hence at most 12. *)
Theorem canbus_tx_task_bounded_calls (s : state) :
  tx_inv s ->
  let s' := canbus_tx_task s in
  8 * (Z.of_nat (send_calls s') - Z.of_nat (send_calls s))
    <= transmit_max s - transmit_pos s + 7 /\
  (send_calls s <= send_calls s' <= send_calls s + 12)%nat /\
  length (trace s') = (length (trace s) + (send_calls s' - send_calls s))%nat.
Proof.
  intros [Hpos Hmax]. cbv zeta. unfold sizeof_transmit_buf in *.
  destruct (canbus_tx_wake s) eqn:Hw.
  2:{ rewrite canbus_tx_task_idle by assumption. lia. }
  destruct (Z.eq_dec (canbus_assigned_id s) 0) as [Hid|Hid].
  { rewrite canbus_tx_task_unassigned by assumption. fields. lia. }
  rewrite canbus_tx_task_refines by (assumption || lia). fields.
  set (r := send_chunks _ _ _).
  pose proof (length_send_chunks (u32 (canbus_assigned_id s + 1))
                (chunks8 (unsent s)) (send_calls s)) as H1.
  fold r in H1.
  pose proof (length_chunks_of (length (unsent s)) (unsent s)
                (Nat.le_refl _)) as H2.
  fold (chunks8 (unsent s)) in H2.
  assert (Hlen : length (unsent s)
                 = Z.to_nat (transmit_max s - transmit_pos s))
    by (unfold unsent; now rewrite length_memread).
  rewrite length_app. lia.
Qed.

(** ** Setup *)

(** X16: [canbus_set_uuid] stores the first 6 bytes it is given,
    wakes the receive task and announces the device with one response
    frame carrying that UUID; from then on exactly the frames that
    carry those 6 bytes (and are at least 7 bytes long) pass
    [can_check_uuid]. *)
Theorem canbus_set_uuid_round_trip (fuel k : nat) (uuid : list Z)
    (id len : Z) (data : list Z) (s : state) :
  accepts_after (send_calls s) k -> (k < fuel)%nat ->
  let tag := if canbus_assigned_id s =? 0
             then CANBUS_RESP_NEED_CANID else CANBUS_RESP_HAVE_CANID in
  let enc := u8 (can_encode_id s) in
  exists s',
    canbus_set_uuid fuel uuid s = Returned s' /\
    memread (canbus_uuid s') 0 CANBUS_UUID_LEN
      = memread uuid 0 CANBUS_UUID_LEN /\
    canbus_rx_wake s' = true /\
    canbus_assigned_id s' = canbus_assigned_id s /\
    trace s' =
      trace s ++ response_sends (response_frame tag uuid enc)
                   (send_calls s) k /\
    accepted_frames (response_sends (response_frame tag uuid enc)
                       (send_calls s) k) =
      [(CANBUS_ID_ADMIN_RESP, response_frame tag uuid enc)] /\
    (can_check_uuid id len data s' = true <->
     7 <= len /\
     memread (skipn 1 data) 0 CANBUS_UUID_LEN
       = memread uuid 0 CANBUS_UUID_LEN).
Proof.
  intros Hacc Hfuel. cbv zeta. unfold canbus_set_uuid.
  set (s0 := canbus_notify_rx _).
  assert (Hu : memread (canbus_uuid s0) 0 CANBUS_UUID_LEN
               = memread uuid 0 CANBUS_UUID_LEN).
  { subst s0. fields.
    rewrite <- (length_memread uuid 0 CANBUS_UUID_LEN) at 2.
    apply memread_memwrite_same. lia. }
  rewrite (can_send_uuid_returns fuel k s0) by assumption.
  eexists. split; [reflexivity|].
  change (can_encode_id s0) with (can_encode_id s).
  change (canbus_assigned_id s0) with (canbus_assigned_id s).
  assert (Hframe : forall tag enc,
            response_frame tag (canbus_uuid s0) enc
            = response_frame tag uuid enc)
    by (intros; unfold response_frame; now rewrite Hu).
  fields.
  split; [exact Hu|]. split; [reflexivity|]. split; [reflexivity|].
  split; [rewrite Hframe; reflexivity|].
  split; [now apply response_sends_one_frame|].
  rewrite <- Hu. split; [intros H; split|].
  - unfold can_check_uuid in H. fields.
    apply andb_true_iff in H. destruct H as [H _].
    destruct (Z.geb_spec len 7); [lia|discriminate].
  - unfold can_check_uuid in H. fields.
    apply andb_true_iff in H. destruct H as [_ H].
    now apply memcmp_eq_iff in H.
  - intros [Hlen Hd]. unfold can_check_uuid. fields.
    apply andb_true_iff. split.
    + destruct (Z.geb_spec len 7); [reflexivity|lia].
    + now apply memcmp_eq_iff.
Qed.

End Canbus.

Arguments Enqueue {va_list} ce args.
Arguments TxWake {va_list}.

(** ** The theorems at sample inputs *)

(** Closed side conditions are settled by evaluation. *)
Ltac by_eval :=
  vm_compute;
  repeat match goal with |- _ /\ _ => split end;
  try reflexivity; try discriminate;
  try (let H := fresh in intro H; discriminate H).

Lemma ex_driver_busy_accepts : accepts_after ex_driver_busy 0 2.
Proof.
  split.
  - intros [|[|i]] Hi; [reflexivity|reflexivity|lia].
  - discriminate.
Qed.

Lemma can_id_roundtrip_witness :
  can_decode_id (can_encode_id ex_assigned) = 0x10a /\
  can_encode_id ex_assigned = 5.
Proof.
  destruct (can_id_roundtrip ex_assigned 5) as (H1 & H2 & _).
  split.
  - apply H1. exists 5. split; [unfold is_byte; lia|reflexivity].
  - apply H2; [unfold is_byte; lia|reflexivity].
Defined.

(** C8 as first stated fails: encoded byte 0 does not stand for "no
    address" alone.  A SET_CANID for the device's UUID with byte 0
    installs address [0x100], a valid assigned address, and the
    device then reports HAVE_CANID with encoded address 0, the same
    byte an unassigned device reports. *)
Lemma encoded_zero_not_reserved :
  valid_assigned_id 0x100 /\
  can_decode_id 0 = 0x100 /\
  can_encode_id (set_assigned_id 0x100 ex_unassigned) = 0 /\
  can_encode_id ex_unassigned = 0 /\
  (exists s',
     can_process ex_driver_ready 0x3f1 1 0x3f0 8 ex_set_self_zero ex_unassigned
       = Returned s' /\
     canbus_assigned_id s' = 0x100 /\
     trace s' = [EvSetFilter 0x100;
                 EvSend 0x3f1 8 [33; 1; 2; 3; 4; 5; 6; 0] 8]) /\
  ~ (forall s, can_encode_id s = 0 -> canbus_assigned_id s = 0).
Proof.
  split; [exists 0; split; [unfold is_byte; lia|reflexivity]|].
  split; [reflexivity|]. split; [reflexivity|]. split; [reflexivity|].
  split.
  - eexists. split; [vm_compute; reflexivity|]. split; reflexivity.
  - intros H. specialize (H (set_assigned_id 0x100 ex_unassigned) eq_refl).
    discriminate H.
Qed.

Lemma set_canid_collision_evicts_witness :
  exists s',
    can_process ex_driver_busy 0x3f1 3 0x3f0 8 ex_set_other ex_assigned
      = ShutDown s' /\
    canbus_assigned_id s' = 0 /\
    trace s' =
      [EvSetFilter 0;
       EvSend 0x3f1 8 [32; 1; 2; 3; 4; 5; 6; 0] (-1);
       EvSend 0x3f1 8 [32; 1; 2; 3; 4; 5; 6; 0] (-1);
       EvSend 0x3f1 8 [32; 1; 2; 3; 4; 5; 6; 0] 8;
       EvShutdown "Another CAN node assigned this ID"%string].
Proof.
  destruct (set_canid_collision_evicts ex_driver_busy 0x3f1 3 2 0x3f0 8
              ex_set_other ex_assigned)
    as (s' & H1 & _ & H2 & H3 & _).
  - lia.
  - reflexivity.
  - reflexivity.
  - reflexivity.
  - exact ex_driver_busy_accepts.
  - lia.
  - exists s'. split; [exact H1|]. split; [exact H2|]. exact H3.
Defined.

Lemma set_canid_match_assigns_witness :
  exists s',
    can_process ex_driver_busy 0x3f1 3 0x3f0 8 ex_set_self ex_unassigned
      = Returned s' /\
    canbus_assigned_id s' = 0x10a /\
    trace s' =
      [EvSetFilter 0x10a;
       EvSend 0x3f1 8 [33; 1; 2; 3; 4; 5; 6; 5] (-1);
       EvSend 0x3f1 8 [33; 1; 2; 3; 4; 5; 6; 5] (-1);
       EvSend 0x3f1 8 [33; 1; 2; 3; 4; 5; 6; 5] 8].
Proof.
  destruct (set_canid_match_assigns ex_driver_busy 0x3f1 3 2 0x3f0 8
              ex_set_self ex_unassigned)
    as (s' & H1 & _ & H2 & H3 & _).
  - lia.
  - reflexivity.
  - reflexivity.
  - by_eval.
  - exact ex_driver_busy_accepts.
  - lia.
  - exists s'. split; [exact H1|]. split; [exact H2|]. exact H3.
Defined.

Lemma unassigned_never_evicts_witness :
  canbus_assigned_id
    (final_state (can_process_set_canid ex_driver_busy 0x3f1 1 0x3f0 8
                    ex_set_self ex_unassigned)) <> 0 /\
  can_process_set_canid ex_driver_busy 0x3f1 1 0x3f0 8
    ex_set_other ex_unassigned = Returned ex_unassigned.
Proof.
  split.
  - destruct (unassigned_never_evicts ex_driver_busy 0x3f1 1 0x3f0 8
                ex_set_self ex_unassigned) as (_ & H & _).
    + by_eval.
    + apply H; [lia|reflexivity].
  - destruct (unassigned_never_evicts ex_driver_busy 0x3f1 1 0x3f0 8
                ex_set_other ex_unassigned) as (_ & _ & H).
    + by_eval.
    + apply H; reflexivity.
Defined.

Lemma canbus_tx_task_fifo_witness :
  canbus_tx_task ex_driver_ready ex_tx_pending =
    set_transmit_pos 11
      (add_sends [EvSend 0x10b 8 [1; 2; 3; 4; 5; 6; 7; 8] 8;
                  EvSend 0x10b 3 [9; 10; 11] 8]
                 (set_tx_wake false ex_tx_pending)) /\
  wire_bytes 0x10b
    (trace (canbus_tx_task ex_driver_ready
              (run_tx_ops ex_driver_ready (list Z) ex_encode
                 [TxWake; Enqueue (mkEncoder 7 12) [21; 22; 23]]
                 ex_tx_pending))) =
    [1; 2; 3; 4; 5; 6; 7; 8; 9; 10; 11; 21; 22; 23] /\
  transmit_max (canbus_tx_task ex_driver_ready ex_tx_unassigned) = 0 /\
  trace (canbus_tx_task ex_driver_ready ex_tx_unassigned) = [].
Proof.
  destruct (canbus_tx_task_fifo ex_driver_ready (list Z) ex_encode
              ex_tx_pending
              [TxWake; Enqueue (mkEncoder 7 12) [21; 22; 23]])
    as (H1 & H2 & _); [by_eval|by_eval|].
  destruct (canbus_tx_task_fifo ex_driver_ready (list Z) ex_encode
              ex_tx_unassigned [])
    as (_ & _ & _ & H3); [by_eval|by_eval|].
  split; [|split].
  - destruct H1 as (E & _); [reflexivity|discriminate|]. exact E.
  - destruct H2 as (_ & _ & H); [discriminate| | | | |].
    + by_eval.
    + reflexivity.
    + repeat constructor; by_eval.
    + by_eval.
    + destruct H as [_ H]; [intros n; reflexivity|reflexivity|]. exact H.
  - destruct H3 as (_ & _ & Hm & Ht); [reflexivity|reflexivity|].
    split; assumption.
Defined.

Lemma console_sendf_full_drops_witness :
  console_sendf (list Z) ex_encode (mkEncoder 7 10) [21; 22; 23] ex_tx_full
    = ex_tx_full.
Proof.
  destruct (console_sendf_full_drops (list Z) ex_encode (mkEncoder 7 10)
              [21; 22; 23] ex_tx_full) as (_ & _ & _ & _ & H & _).
  - by_eval.
  - by_eval.
  - by_eval.
  - by_eval.
  - apply H. by_eval.
Defined.

Lemma console_sendf_reset_and_compact_witness :
  (let s' := console_sendf (list Z) ex_encode (mkEncoder 7 20) [21; 22; 23]
               ex_tx_drained in
   transmit_pos s' = 0 /\ transmit_max s' = 3 /\
   firstn 3 (transmit_buf s') = [21; 22; 23]) /\
  (let s' := console_sendf (list Z) ex_encode (mkEncoder 7 20) [21; 22; 23]
               ex_tx_tail in
   transmit_pos s' = 0 /\ transmit_max s' = 43 /\
   unsent s' = repeat 7 40 ++ [21; 22; 23]).
Proof.
  split.
  - destruct (console_sendf_reset_and_compact (list Z) ex_encode
                (mkEncoder 7 20) [21; 22; 23] ex_tx_drained) as [H _].
    destruct H as [_ E]; [reflexivity|]. cbv zeta. rewrite E.
    repeat split.
  - destruct (console_sendf_reset_and_compact (list Z) ex_encode
                (mkEncoder 7 20) [21; 22; 23] ex_tx_tail) as [_ H].
    destruct H as (_ & _ & Hp & Hm & _ & _ & Hu & _).
    + by_eval.
    + reflexivity.
    + by_eval.
    + by_eval.
    + by_eval.
    + cbv zeta. split; [exact Hp|]. split; [exact Hm|]. exact Hu.
Defined.

Lemma transmit_cursors_invariant_witness :
  tx_inv (console_sendf (list Z) ex_encode (mkEncoder 7 20) [21; 22; 23]
            ex_tx_tail) /\
  tx_inv (canbus_tx_task ex_driver_busy ex_tx_pending) /\
  tx_inv (run_tx_ops ex_driver_busy (list Z) ex_encode
            [Enqueue (mkEncoder 7 20) [21; 22; 23]; TxWake]
            initial_state).
Proof.
  assert (Hok : Forall (op_ok (list Z) ex_encode)
                  [Enqueue (mkEncoder 7 20) [21; 22; 23];
                   TxWake])
    by (repeat constructor; by_eval).
  destruct (transmit_cursors_invariant ex_driver_busy (list Z) ex_encode
              (mkEncoder 7 20) [21; 22; 23]
              [Enqueue (mkEncoder 7 20) [21; 22; 23]; TxWake]
              ex_tx_tail) as (H1 & _ & _ & H4).
  { by_eval. }
  destruct (transmit_cursors_invariant ex_driver_busy (list Z) ex_encode
              (mkEncoder 7 20) [21; 22; 23] [] ex_tx_pending)
    as (_ & H2 & _).
  { by_eval. }
  split; [|split].
  - apply H1. by_eval.
  - exact H2.
  - apply H4. exact Hok.
Defined.

Lemma receive_buffer_never_overflows_witness :
  receive_pos (can_process_data 0x10a 8 (fr_data ex_data_frame)
                 ex_rx_nearly_full) = 192 /\
  length (receive_buf (can_process_data 0x10a 8 (fr_data ex_data_frame)
                         ex_rx_nearly_full)) = 192%nat /\
  rx_inv (final_state (rx_drain ex_driver_ready 0x3f0 0x3f1 1
                         [ex_data_frame; ex_data_frame; ex_data_frame]
                         ex_rx_nearly_full)).
Proof.
  destruct (receive_buffer_never_overflows ex_driver_ready ex_find 0x3f0 0x3f1 1
              [ex_data_frame; ex_data_frame; ex_data_frame] 0x10a 8
              (fr_data ex_data_frame) ex_rx_nearly_full)
    as ((Hp & _ & Hl & _) & (Hi & _) & _).
  - by_eval.
  - reflexivity.
  - lia.
  - split; [exact Hp|]. split; [exact Hl|]. exact Hi.
Defined.

Lemma canbus_rx_task_compacts_witness :
  exists s',
    canbus_rx_task ex_driver_ready ex_find 0x3f0 0x3f1 1 [ex_data_frame]
                   ex_assigned = Returned s' /\
    receive_pos s' = 5 /\
    received s' = [14; 15; 16; 17; 18] /\
    canbus_rx_wake s' = true.
Proof.
  destruct (canbus_rx_task_compacts ex_driver_ready ex_find 0x3f0 0x3f1 1
              [ex_data_frame] ex_assigned
              (can_process_data 0x10a 8 (fr_data ex_data_frame)
                 (set_rx_wake false ex_assigned)))
    as (H1 & H2 & _).
  - reflexivity.
  - by_eval.
  - reflexivity.
  - reflexivity.
  - destruct H2 as (Hp & Hr & _ & Hw).
    + discriminate.
    + by_eval.
    + by_eval.
    + eexists. split; [exact H1|]. split; [exact Hp|]. split; [exact Hr|].
      exact Hw.
Defined.

(** ** The further properties at sample inputs *)

Lemma can_check_uuid_matches_witness :
  can_check_uuid 0x3f0 8 ex_set_self ex_assigned = true /\
  can_check_uuid 0x3f0 6 ex_set_self ex_assigned = false.
Proof.
  destruct (can_check_uuid_matches 0x3f0 8 ex_set_self ex_assigned)
    as [[_ H] _]; [reflexivity|by_eval; lia|].
  destruct (can_check_uuid_matches 0x3f0 6 ex_set_self ex_assigned)
    as [_ H']; [reflexivity|by_eval; lia|].
  split.
  - apply H. split; [lia|reflexivity].
  - apply H'. lia.
Defined.

Lemma can_process_ignores_witness :
  can_process ex_driver_ready 0x3f1 1 0x3f0 8 ex_unknown ex_assigned
    = Returned ex_assigned /\
  can_process ex_driver_ready 0x3f1 1 0x3f0 7 ex_set_self ex_assigned
    = Returned ex_assigned /\
  can_process ex_driver_ready 0x3f1 1 0x3f0 8 ex_set_other ex_unassigned
    = Returned ex_unassigned.
Proof.
  destruct (can_process_ignores ex_driver_ready 0x3f1 1 0x3f0 8 ex_unknown
              ex_assigned) as (_ & H1 & _).
  destruct (can_process_ignores ex_driver_ready 0x3f1 1 0x3f0 7 ex_set_self
              ex_assigned) as (_ & _ & H2 & _).
  destruct (can_process_ignores ex_driver_ready 0x3f1 1 0x3f0 8 ex_set_other
              ex_unassigned) as (_ & _ & _ & _ & H3).
  split; [|split].
  - apply H1. cbn. intuition discriminate.
  - apply H2; [reflexivity|lia].
  - apply H3; [discriminate|reflexivity|discriminate].
Defined.

Lemma query_unassigned_answers_witness :
  can_process ex_driver_busy 0x3f1 3 0x3f0 1 ex_query_unassigned ex_assigned
    = Returned ex_assigned /\
  accepted_frames
    (trace (final_state
              (can_process ex_driver_busy 0x3f1 3 0x3f0 1 ex_query_unassigned
                 ex_unassigned)))
    = [(0x3f1, [32; 1; 2; 3; 4; 5; 6; 0])].
Proof.
  destruct (query_unassigned_answers ex_driver_busy 0x3f1 3 2 0x3f0 1
              ex_query_unassigned ex_assigned) as [H1 _];
    [discriminate|reflexivity|].
  destruct (query_unassigned_answers ex_driver_busy 0x3f1 3 2 0x3f0 1
              ex_query_unassigned ex_unassigned) as [_ H2];
    [discriminate|reflexivity|].
  split.
  - apply H1. discriminate.
  - destruct H2 as [E Ha];
      [reflexivity|exact ex_driver_busy_accepts|lia|].
    rewrite E. exact Ha.
Defined.

Lemma query_answers_witness :
  exists frame,
    can_process ex_driver_busy 0x3f1 3 0x3f0 8 ex_query_self ex_assigned =
      Returned (add_sends (response_sends ex_driver_busy 0x3f1 frame 0 2)
                          ex_assigned) /\
    frame = [33; 1; 2; 3; 4; 5; 6; 5].
Proof.
  destruct (query_answers ex_driver_busy 0x3f1 3 2 0x3f0 8 ex_query_self
              ex_assigned 5) as (frame & E & _ & _ & H).
  - reflexivity.
  - reflexivity.
  - exact ex_driver_busy_accepts.
  - lia.
  - exists frame. split; [exact E|]. apply H; [by_eval|reflexivity].
Defined.

Lemma can_process_terminal_witness :
  nth 0 ex_reboot_self 0 = CANBUS_CMD_REBOOT /\
  can_decode_id (nth 7 ex_set_other 0) = canbus_assigned_id ex_assigned /\
  shutdown_calls
    (trace (final_state
              (can_process ex_driver_ready 0x3f1 1 0x3f0 8 ex_set_other
                 ex_assigned)))
    = ["Another CAN node assigned this ID"%string].
Proof.
  destruct (can_process_terminal ex_driver_ready 0x3f1 1 0x3f0 8
              ex_reboot_self ex_assigned (log EvReboot ex_assigned))
    as [H1 _].
  destruct (can_process_terminal ex_driver_ready 0x3f1 1 0x3f0 8
              ex_set_other ex_assigned
              (final_state
                 (can_process ex_driver_ready 0x3f1 1 0x3f0 8 ex_set_other
                    ex_assigned))) as [_ H2].
  destruct H1 as (Hc & _); [reflexivity|].
  destruct H2 as (_ & _ & _ & Hd & _ & Hs); [reflexivity|].
  split; [exact Hc|]. split; [exact Hd|]. exact Hs.
Defined.

Lemma can_send_uuid_unbounded_retry_witness :
  exists s',
    can_process ex_driver_dead 0x3f1 5 0x3f0 8 ex_set_other ex_assigned
      = Retrying s' /\
    canbus_assigned_id s' = 0 /\
    shutdown_calls (trace s') = [].
Proof.
  destruct (can_send_uuid_unbounded_retry ex_driver_dead 0x3f1 5 0x3f0 8
              ex_set_other ex_assigned) as [_ H].
  - intros n. reflexivity.
  - destruct H as (s' & E & Hid & _ & _ & Hs);
      [lia|reflexivity|reflexivity|reflexivity|].
    exists s'. split; [exact E|]. split; [exact Hid|exact Hs].
Defined.

Lemma rx_drain_ignores_foreign_witness :
  rx_drain ex_driver_ready 0x3f0 0x3f1 1 [ex_foreign_frame; ex_zero_frame]
    ex_assigned = Returned ex_assigned /\
  rx_drain ex_driver_ready 0x3f0 0x3f1 1 [ex_data_frame; ex_zero_frame]
    ex_unassigned = Returned ex_unassigned.
Proof.
  destruct (rx_drain_ignores_foreign ex_driver_ready 0x3f0 0x3f1 1
              [ex_foreign_frame; ex_zero_frame] ex_assigned) as [H1 _].
  { constructor; [split; [by_eval|right; by_eval]|].
    constructor; [split; [by_eval|left; reflexivity]|constructor]. }
  destruct (rx_drain_ignores_foreign ex_driver_ready 0x3f0 0x3f1 1
              [] ex_unassigned) as [_ H2].
  { constructor. }
  split; [exact H1|].
  apply H2; [reflexivity|]. repeat constructor; by_eval.
Defined.

Lemma can_process_data_truncates_witness :
  received (can_process_data 0x10a 8 (fr_data ex_data_frame)
              ex_rx_nearly_full)
    = repeat 7 190 ++ [11; 12].
Proof.
  destruct (can_process_data_truncates 0x10a 8 (fr_data ex_data_frame)
              ex_rx_nearly_full) as [H _].
  - by_eval.
  - reflexivity.
  - lia.
  - rewrite H. reflexivity.
Defined.

Lemma canbus_rx_task_reassembles_witness :
  exists s1,
    canbus_rx_task ex_driver_ready ex_find 0x3f0 0x3f1 1
      [ex_data_frame; ex_data_frame] ex_assigned
      = Returned (rx_dispatch ex_find s1) /\
    received s1 = [11; 12; 13; 14; 15; 16; 17; 18;
                   11; 12; 13; 14; 15; 16; 17; 18].
Proof.
  destruct (canbus_rx_task_reassembles ex_driver_ready ex_find 0x3f0 0x3f1 1
              [ex_data_frame; ex_data_frame] ex_assigned)
    as (s1 & _ & E & Hr & _).
  - reflexivity.
  - discriminate.
  - by_eval.
  - reflexivity.
  - repeat constructor; by_eval.
  - by_eval.
  - exists s1. split; [exact E|exact Hr].
Defined.

Lemma rx_drain_stops_witness :
  exists s',
    canbus_rx_task ex_driver_ready ex_find 0x3f0 0x3f1 1
      ([ex_data_frame] ++ ex_collision_frame :: [ex_data_frame]) ex_assigned
      = ShutDown s' /\
    receive_pos s' = 8.
Proof.
  destruct (rx_drain_stops ex_driver_ready ex_find 0x3f0 0x3f1 1
              [ex_data_frame] [ex_data_frame] ex_collision_frame ex_assigned
              (can_process_data 0x10a 8 (fr_data ex_data_frame)
                 (set_rx_wake false ex_assigned))) as (E & Hp & _).
  - reflexivity.
  - repeat constructor; by_eval.
  - reflexivity.
  - by_eval.
  - reflexivity.
  - right. discriminate.
  - intros s2. discriminate.
  - eexists. split; [exact E|]. exact Hp.
Defined.

Lemma unassigned_never_transmits_witness :
  trace (run_tx_ops ex_driver_ready (list Z) ex_encode
           [Enqueue (mkEncoder 7 12) [21; 22; 23]; TxWake]
           ex_tx_unassigned) = [] /\
  unsent (canbus_tx_task ex_driver_ready
            (canbus_shutdown ex_tx_unassigned)) = [].
Proof.
  destruct (unassigned_never_transmits ex_driver_ready (list Z) ex_encode
              [Enqueue (mkEncoder 7 12) [21; 22; 23]; TxWake]
              (mkEncoder 7 12) [21; 22; 23] ex_tx_unassigned)
    as (H1 & _); [reflexivity|].
  destruct (unassigned_never_transmits ex_driver_ready (list Z) ex_encode
              [] (mkEncoder 7 12) [21; 22; 23] ex_tx_unassigned)
    as (_ & _ & _ & H2 & _); [reflexivity|].
  split; [exact H1|exact H2].
Defined.

Lemma data_identifiers_disjoint_witness :
  u32 (0x10a + 1) = 0x10b /\ u32 (0x10a + 1) <> 0x10c.
Proof.
  destruct (data_identifiers_disjoint 0x10a 0x10c) as (_ & _ & H1 & H2 & _).
  - exists 5. split; [by_eval|reflexivity].
  - exists 6. split; [by_eval|reflexivity].
  - split; [exact H1|exact H2].
Defined.

Lemma canbus_tx_task_bounded_calls_witness :
  (send_calls (canbus_tx_task ex_driver_busy ex_tx_tail)
   <= send_calls ex_tx_tail + 12)%nat /\
  8 * (Z.of_nat (send_calls (canbus_tx_task ex_driver_ready ex_tx_pending))
       - 0) <= 11 + 7.
Proof.
  destruct (canbus_tx_task_bounded_calls ex_driver_busy ex_tx_tail)
    as (_ & [_ H1] & _); [by_eval|].
  destruct (canbus_tx_task_bounded_calls ex_driver_ready ex_tx_pending)
    as (H2 & _); [by_eval|].
  split; [exact H1|exact H2].
Defined.

Lemma canbus_set_uuid_round_trip_witness :
  exists s',
    canbus_set_uuid ex_driver_busy 0x3f1 3 (ex_uuid ++ [99; 98])
      initial_state = Returned s' /\
    accepted_frames (trace s') = [(0x3f1, [32; 1; 2; 3; 4; 5; 6; 0])] /\
    can_check_uuid 0x3f0 8 ex_query_self s' = true.
Proof.
  destruct (canbus_set_uuid_round_trip ex_driver_busy 0x3f1 3 2
              (ex_uuid ++ [99; 98]) 0x3f0 8 ex_query_self initial_state)
    as (s' & E & _ & _ & _ & Ht & Ha & Hc).
  - exact ex_driver_busy_accepts.
  - lia.
  - exists s'. split; [exact E|]. split.
    + rewrite Ht. exact Ha.
    + apply Hc. split; [lia|reflexivity].
Defined.
